(** * pykis.event.handler: the event subscription and dispatch mechanism

    A shallow embedding of [src/pykis/event/handler.py]: the callback
    wrappers ([KisLambdaEventFilter], [KisLambdaEventCallback]), the
    subscription handle ([KisEventTicket]) and the registry
    ([KisEventHandler]) with its [add], [on], [once], [remove], [clear]
    and [invoke] methods.

    Python code runs in a state-and-exception monad [M]; the methods whose
    calls into user code we want to observe ([invoke], [unsubscribe], the
    wrapper's [__callback__] and [__call__]) run in [W], which additionally
    returns the list of calls they made.

    What the model covers and what it leaves out:
    - one handler object is followed; [self] and [handler] in the source
      always denote it;
    - callbacks are plain functions or [KisLambdaEventCallback] objects,
      the one concrete [KisEventCallback] of the module;
    - user code (callbacks, filter predicates, unsubscribed-callbacks) is
      any state transformer that returns or raises; it can change the
      handler and the memory, it cannot forge the record of calls;
    - a built-in [set] is the list of its members, to which [set_add]
      never adds a member twice, iterated in insertion order; Python fixes
      no order, and no general statement below rests on one;
    - a finalizer runs where the program says so: [finalize t] stands
      for the program letting go of the ticket [t], upon which
      [KisEventTicket.__del__] runs and what it raises is ignored; a
      ticket that a program binds and returns, or stores with
      [keep_ticket], stays alive.  The wrapper's [__del__] is called
      where the source calls it by name (in [remove]). *)

From Stdlib Require Import List ZArith Bool Lia PeanoNat.
Import ListNotations.

Set Implicit Arguments.

(** ** Python values *)

(** A Python function object (a [def], a [lambda], a bound method), known
    by its identity only; what it does when called is given separately. *)
Definition callable := nat.

(** The exceptions that matter here: the two built-in ones the module can
    meet, and whatever user code raises. *)
Inductive exn : Type :=
| TypeError
| KeyError
| Exception (tag : nat).

(** A call either returns a value or raises. *)
Inductive outcome (A : Type) : Type :=
| Ret (a : A)
| Raise (x : exn).

Arguments Ret {A} a.
Arguments Raise {A} x.

(** [KisLambdaEventFilter(filter)].  The class defines [__hash__] but no
    [__eq__], so two instances are equal only when they are the same
    object: [flt_id] is that object's identity. *)
Record KisLambdaEventFilter : Type := {
  flt_id : nat;
  flt_filter : callable
}.

(** What [KisLambdaEventCallback.where] holds when it is not [None]: an
    object with a [__filter__] method ([isinstance(where, KisEventFilter)])
    or a bare callable. *)
Inductive where_obj : Type :=
| WFilter (w : KisLambdaEventFilter)
| WCallable (f : callable).

(** [KisLambdaEventCallback(callback, where, once)].  As for the filter,
    [__hash__] is defined and [__eq__] is not: [cb_id] is the object's
    identity.  The three attributes are set in [__init__] and never
    assigned again, so the same object is the same record. *)
Record KisLambdaEventCallback : Type := {
  cb_id : nat;
  cb_callback : callable;
  cb_where : option where_obj;
  cb_once : bool
}.

(** [EventCallback = Callable | KisEventCallback]; the module's one
    concrete [KisEventCallback] is [KisLambdaEventCallback]. *)
Inductive EventCallback : Type :=
| Plain (f : callable)
| Lambda (l : KisLambdaEventCallback).

(** [KisEventTicket(handler, callback, unsubscribed_callbacks)].  The
    development follows one handler object, the one held in the state
    below; [tk.handler] is that handler. *)
Record KisEventTicket : Type := {
  tk_callback : EventCallback;
  tk_unsubscribed_callbacks : list callable
}.

(** ** Python's [==] on callbacks *)

Definition KisLambdaEventFilter_eqb (a b : KisLambdaEventFilter) : bool :=
  Nat.eqb (flt_id a) (flt_id b) && Nat.eqb (flt_filter a) (flt_filter b).

Definition where_obj_eqb (a b : where_obj) : bool :=
  match a, b with
  | WFilter x, WFilter y => KisLambdaEventFilter_eqb x y
  | WCallable f, WCallable g => Nat.eqb f g
  | _, _ => false
  end.

Definition where_eqb (a b : option where_obj) : bool :=
  match a, b with
  | None, None => true
  | Some x, Some y => where_obj_eqb x y
  | _, _ => false
  end.

(** The same object: the same identity (and then the same attributes). *)
Definition KisLambdaEventCallback_eqb (a b : KisLambdaEventCallback) : bool :=
  Nat.eqb (cb_id a) (cb_id b) && Nat.eqb (cb_callback a) (cb_callback b)
  && where_eqb (cb_where a) (cb_where b) && Bool.eqb (cb_once a) (cb_once b).

(** [a == b]: function objects compare by identity, wrapper objects
    inherit [object.__eq__], and a wrapper never equals a function. *)
Definition py_eq (a b : EventCallback) : bool :=
  match a, b with
  | Plain f, Plain g => Nat.eqb f g
  | Lambda x, Lambda y => KisLambdaEventCallback_eqb x y
  | _, _ => false
  end.

(** ** A small monad interface, shared by [M] and [W] below *)

Class Monad (F : Type -> Type) : Type := {
  ret : forall {A : Type}, A -> F A;
  bind : forall {A B : Type}, F A -> (A -> F B) -> F B
}.

Declare Scope py_scope.
Notation "x <- c ;; k" := (bind c (fun x => k))
  (at level 61, c at next level, right associativity) : py_scope.
Notation "c ;; k" := (bind c (fun _ => k))
  (at level 61, right associativity) : py_scope.
Open Scope py_scope.

(** [for x in xs: k x] *)
Fixpoint for_each {F : Type -> Type} {MF : Monad F} {A : Type}
    (xs : list A) (k : A -> F unit) : F unit :=
  match xs with
  | [] => ret tt
  | x :: rest => k x ;; for_each rest k
  end.

(** [subseq l1 l2]: [l1] is [l2] with some members left out. *)
Inductive subseq {A : Type} : list A -> list A -> Prop :=
| subseq_nil : subseq [] []
| subseq_skip (x : A) (l1 l2 : list A) : subseq l1 l2 -> subseq l1 (x :: l2)
| subseq_take (x : A) (l1 l2 : list A) :
    subseq l1 l2 -> subseq (x :: l1) (x :: l2).

Section Handler.

(** The event's sender and payload, and the rest of the program's
    memory: all three are opaque to the module. *)
Variables Sender Args U : Type.

(** *** Built-in [hash] *)

(** [hash(f)] of a function object, [hash(None)] and the way
    [hash((a, b))] combines the members' hashes belong to the
    interpreter. *)
Variable hash_callable : callable -> Z.
Variable hash_None : Z.
Variable hash_tuple : list Z -> Z.

(** [KisLambdaEventFilter.__hash__]: [hash(self.filter)] *)
Definition KisLambdaEventFilter_hash (w : KisLambdaEventFilter) : Z :=
  hash_callable (flt_filter w).

Definition where_hash (w : option where_obj) : Z :=
  match w with
  | None => hash_None
  | Some (WFilter x) => KisLambdaEventFilter_hash x
  | Some (WCallable f) => hash_callable f
  end.

(** [KisLambdaEventCallback.__hash__]: [hash((self.callback, self.where))] *)
Definition KisLambdaEventCallback_hash (l : KisLambdaEventCallback) : Z :=
  hash_tuple [hash_callable (cb_callback l); where_hash (cb_where l)].

Definition py_hash (h : EventCallback) : Z :=
  match h with
  | Plain f => hash_callable f
  | Lambda l => KisLambdaEventCallback_hash l
  end.

(** *** Built-in [set], restricted to callbacks

    A set is kept as the list of its members, in the order they were
    added.  Looking a member up compares hashes first and then [==]. *)

Definition same_key (x y : EventCallback) : bool :=
  Z.eqb (py_hash y) (py_hash x) && py_eq y x.

(** [x in s] *)
Definition set_contains (x : EventCallback) (s : list EventCallback) : bool :=
  existsb (same_key x) s.

(** [s.add(x)] *)
Definition set_add (x : EventCallback) (s : list EventCallback)
  : list EventCallback :=
  if set_contains x s then s else s ++ [x].

(** [s.remove(x)]; [None] stands for [KeyError]. *)
Definition set_remove (x : EventCallback) (s : list EventCallback)
  : option (list EventCallback) :=
  if set_contains x s
  then Some (filter (fun y => negb (same_key x y)) s)
  else None.

(** *** The state *)

(** [handlers] is the handler's [self.handlers]; [next_id] is the
    identity the next object created will get; [mem] is everything
    else. *)
Record state : Type := {
  handlers : list EventCallback;
  next_id : nat;
  mem : U
}.

Definition with_handlers (s : list EventCallback) (st : state) : state :=
  {| handlers := s; next_id := next_id st; mem := mem st |}.

Definition with_mem (u : U) (st : state) : state :=
  {| handlers := handlers st; next_id := next_id st; mem := u |}.

(** What a call made from inside the module looks like from outside. *)
Inductive event : Type :=
| Called (h : EventCallback) (s : Sender) (e : Args)
    (* the action of the subscription [h] was called with [(s, e)] *)
| Unsubscribed (g : callable) (t : KisEventTicket)
    (* the ticket's unsubscribed-callback [g] was called with [t] *).

(** Python code: a state transformer that returns or raises. *)
Definition M (A : Type) : Type := state -> outcome A * state.

(** The same, also returning the calls made, oldest first. *)
Definition W (A : Type) : Type := state -> outcome A * state * list event.

#[export] Instance Monad_M : Monad M := {
  ret := fun A (a : A) st => (Ret a, st);
  bind := fun A B (c : M A) (k : A -> M B) st =>
    match c st with
    | (Ret a, st1) => k a st1
    | (Raise x, st1) => (Raise x, st1)
    end
}.

#[export] Instance Monad_W : Monad W := {
  ret := fun A (a : A) st => (Ret a, st, []);
  bind := fun A B (c : W A) (k : A -> W B) st =>
    match c st with
    | (Ret a, st1, t1) =>
        match k a st1 with
        | (r, st2, t2) => (r, st2, t1 ++ t2)
        end
    | (Raise x, st1, t1) => (Raise x, st1, t1)
    end
}.

Definition lift {A : Type} (c : M A) : W A :=
  fun st => match c st with (r, st1) => (r, st1, []) end.

Definition tell (ev : event) : W unit :=
  fun st => (Ret tt, st, [ev]).

(** The three parts of what a run in [W] gives. *)
Definition result_of {A : Type} (r : outcome A * state * list event)
  : outcome A := fst (fst r).

Definition state_of {A : Type} (r : outcome A * state * list event)
  : state := snd (fst r).

Definition trace_of {A : Type} (r : outcome A * state * list event)
  : list event := snd r.

(** [try: c; except KeyError: pass] *)
Definition except_KeyError_pass (c : M unit) : M unit :=
  fun st =>
    match c st with
    | (Raise KeyError, st1) => (Ret tt, st1)
    | r => r
    end.

(** *** User code *)

(** What calling [f(sender, e)] does, for a callback and for a filter
    predicate, and what calling an unsubscribed-callback [g(ticket)]
    does. *)
Variable body : callable -> Sender -> Args -> M unit.
Variable pred : callable -> Sender -> Args -> M bool.
Variable unsubscribed_body : callable -> KisEventTicket -> M unit.

(** [pykis.utils.reference.release_method] is imported by the module and
    is not among the sources at hand: it is taken as given, as a call
    that works on the memory outside the handler and may raise. *)
Variable release_method : callable -> U -> outcome unit * U.

Definition call_release_method (f : callable) : M unit :=
  fun st =>
    match release_method f (mem st) with
    | (r, u) => (r, with_mem u st)
    end.

(** *** KisLambdaEventFilter *)

(** [__filter__]: [return self.filter(sender, e)] *)
Definition KisLambdaEventFilter_filter
    (w : KisLambdaEventFilter) (s : Sender) (e : Args) : M bool :=
  pred (flt_filter w) s e.

(** *** KisLambdaEventCallback *)

(** [self.where.__filter__(handler, sender, e)
     if isinstance(self.where, KisEventFilter) else self.where(sender, e)] *)
Definition apply_where (w : where_obj) (s : Sender) (e : Args) : M bool :=
  match w with
  | WFilter x => KisLambdaEventFilter_filter x s e
  | WCallable f => pred f s e
  end.

(** [__filter__] *)
Definition KisLambdaEventCallback_filter
    (l : KisLambdaEventCallback) (s : Sender) (e : Args) : M bool :=
  match cb_where l with
  | None => ret true
  | Some w => apply_where w s e
  end.

(** [__del__]: [release_method(self.callback)] *)
Definition KisLambdaEventCallback_del (l : KisLambdaEventCallback) : M unit :=
  call_release_method (cb_callback l).

(** *** KisEventHandler *)

(** [add]: [self.handlers.add(handler); return KisEventTicket(self, handler)] *)
Definition add (h : EventCallback) : M KisEventTicket :=
  fun st =>
    (Ret {| tk_callback := h; tk_unsubscribed_callbacks := [] |},
     with_handlers (set_add h (handlers st)) st).

(** [KisLambdaEventCallback(handler, where=where, once=once)]: a new object. *)
Definition new_KisLambdaEventCallback
    (f : callable) (w : option where_obj) (o : bool)
  : M KisLambdaEventCallback :=
  fun st =>
    (Ret {| cb_id := next_id st; cb_callback := f;
            cb_where := w; cb_once := o |},
     {| handlers := handlers st; next_id := S (next_id st); mem := mem st |}).

(** [on] *)
Definition on (f : callable) (w : option where_obj) (o : bool)
  : M KisEventTicket :=
  l <- new_KisLambdaEventCallback f w o ;;
  add (Lambda l).

(** [once] *)
Definition once (f : callable) (w : option where_obj) : M KisEventTicket :=
  on f w true.

(** The function a callback's release works on: the function itself, or
    the wrapper's [self.callback]. *)
Definition released_callable (h : EventCallback) : callable :=
  match h with
  | Lambda l => cb_callback l
  | Plain f => f
  end.

(** The first half of [remove]: a [KisEventCallback] has its [__del__]
    called when it has one (the wrapper does), anything else goes to
    [release_method]. *)
Definition release_hook (h : EventCallback) : M unit :=
  match h with
  | Lambda l => KisLambdaEventCallback_del l
  | Plain f => call_release_method f
  end.

(** [self.handlers.remove(handler)] *)
Definition handlers_remove (h : EventCallback) : M unit :=
  fun st =>
    match set_remove h (handlers st) with
    | Some s => (Ret tt, with_handlers s st)
    | None => (Raise KeyError, st)
    end.

(** [remove] *)
Definition remove (h : EventCallback) : M unit :=
  release_hook h ;;
  except_KeyError_pass (handlers_remove h).

(** [clear] *)
Definition clear : M unit :=
  fun st => (Ret tt, with_handlers [] st).

(** [__contains__] *)
Definition contains (h : EventCallback) : M bool :=
  fun st => (Ret (set_contains h (handlers st)), st).

(** [__len__] *)
Definition len : M nat :=
  fun st => (Ret (length (handlers st)), st).

(** [self.handlers.copy()] *)
Definition handlers_copy : M (list EventCallback) :=
  fun st => (Ret (handlers st), st).

(** The call of a subscription's action, recorded and then run. *)
Definition call (h : EventCallback) (f : callable) (s : Sender) (e : Args)
  : W unit :=
  tell (Called h s e) ;;
  lift (body f s e).

(** [KisLambdaEventCallback.__callback__] *)
Definition KisLambdaEventCallback_callback
    (l : KisLambdaEventCallback) (s : Sender) (e : Args) : W unit :=
  (if cb_once l then lift (remove (Lambda l)) else ret tt) ;;
  call (Lambda l) (cb_callback l) s e.

(** [KisLambdaEventCallback.__call__] *)
Definition KisLambdaEventCallback_call
    (l : KisLambdaEventCallback) (s : Sender) (e : Args) : W unit :=
  b <- lift (KisLambdaEventCallback_filter l s e) ;;
  if b then KisLambdaEventCallback_callback l s e else ret tt.

(** The body of the loop of [invoke]. *)
Definition invoke_one (s : Sender) (e : Args) (h : EventCallback) : W unit :=
  match h with
  | Lambda l =>
      b <- lift (KisLambdaEventCallback_filter l s e) ;;
      if negb b then KisLambdaEventCallback_callback l s e else ret tt
  | Plain f => call (Plain f) f s e
  end.

(** [invoke] *)
Definition invoke (s : Sender) (e : Args) : W unit :=
  snapshot <- lift handlers_copy ;;
  for_each snapshot (invoke_one s e).

(** *** KisEventTicket *)

(** [once] *)
Definition ticket_once (t : KisEventTicket) : bool :=
  match tk_callback t with
  | Lambda l => cb_once l
  | Plain _ => false
  end.

(** [registered]: [self.callback in self.handler] *)
Definition registered (t : KisEventTicket) : M bool :=
  contains (tk_callback t).

(** [unsubscribe] *)
Definition unsubscribe (t : KisEventTicket) : W unit :=
  lift (remove (tk_callback t)) ;;
  r <- lift (registered t) ;;
  if r
  then for_each (tk_unsubscribed_callbacks t)
         (fun g => tell (Unsubscribed g t) ;; lift (unsubscribed_body g t))
  else ret tt.

(** [__exit__] *)
Definition ticket_exit (t : KisEventTicket) : W unit := unsubscribe t.

(** *** [__hash__] of handlers and tickets *)

(** [hash(s)] of a built-in [set]: [set] is unhashable. *)
Definition hash_set (s : list EventCallback) : outcome Z := Raise TypeError.

(** [hash((a, b, ...))]: the members are hashed left to right, the first
    failure is the tuple's. *)
Fixpoint hash_members (xs : list (outcome Z)) : outcome (list Z) :=
  match xs with
  | [] => Ret []
  | Ret z :: rest =>
      match hash_members rest with
      | Ret zs => Ret (z :: zs)
      | Raise x => Raise x
      end
  | Raise x :: _ => Raise x
  end.

Definition hash_of_tuple (xs : list (outcome Z)) : outcome Z :=
  match hash_members xs with
  | Ret zs => Ret (hash_tuple zs)
  | Raise x => Raise x
  end.

(** [KisEventHandler.__hash__]: [hash(self.handlers)] *)
Definition KisEventHandler_hash (st : state) : outcome Z :=
  hash_set (handlers st).

(** [KisEventTicket.__hash__]: [hash((self.handler, self.callback))] *)
Definition KisEventTicket_hash (t : KisEventTicket) (st : state) : outcome Z :=
  hash_of_tuple [KisEventHandler_hash st; Ret (py_hash (tk_callback t))].

(** *** The rest of the handler's and the ticket's methods *)

(** Built-in [set(iterable)]: the members are added one by one. *)
Definition set_of_list (hs : list EventCallback) : list EventCallback :=
  fold_left (fun s h => set_add h s) hs [].

(** [KisEventHandler.__init__]: [self.handlers = set(handlers)] *)
Definition KisEventHandler_init (hs : list EventCallback) : M unit :=
  fun st => (Ret tt, with_handlers (set_of_list hs) st).

(** [KisEventHandler.__bool__]: [bool(self.handlers)] *)
Definition KisEventHandler_bool : M bool :=
  fun st =>
    (Ret (match handlers st with [] => false | _ :: _ => true end), st).

(** [KisEventHandler.__call__] *)
Definition KisEventHandler_call (s : Sender) (e : Args) : W unit :=
  invoke s e.

(** Built-in [a == b] on sets: the same size, and every member of [a] is
    a member of [b]. *)
Definition set_eq (a b : list EventCallback) : bool :=
  Nat.eqb (length a) (length b) && forallb (fun x => set_contains x b) a.

(** The right-hand side of an [==]: another handler (with its set),
    another ticket (with its callback and its handler's set), or an
    object of some other class. *)
Inductive py_other : Type :=
| OtherHandler (s : list EventCallback)
| OtherTicket (c : EventCallback) (s : list EventCallback)
| OtherObject.

(** [KisEventHandler.__eq__] *)
Definition KisEventHandler_eq (other : py_other) : M bool :=
  fun st =>
    (Ret (match other with
          | OtherHandler s => set_eq (handlers st) s
          | _ => false
          end), st).

(** [KisEventHandler.__ne__] *)
Definition KisEventHandler_ne (other : py_other) : M bool :=
  b <- KisEventHandler_eq other ;; ret (negb b).

(** [KisEventTicket.__eq__]:
    [self.handler == other.handler and self.callback == other.callback] *)
Definition KisEventTicket_eq (t : KisEventTicket) (other : py_other) : M bool :=
  match other with
  | OtherTicket c s =>
      b <- KisEventHandler_eq (OtherHandler s) ;;
      if b then ret (py_eq (tk_callback t) c) else ret false
  | _ => ret false
  end.

(** [KisEventTicket.__ne__] *)
Definition KisEventTicket_ne (t : KisEventTicket) (other : py_other) : M bool :=
  b <- KisEventTicket_eq t other ;; ret (negb b).

(** [KisEventTicket.__enter__] *)
Definition ticket_enter (t : KisEventTicket) : W KisEventTicket := ret t.

(** [with t as v: block]: [__enter__], the block, then [__exit__] whether
    the block returned or raised.  [__exit__] returns [None], so what the
    block raised is raised again; what [__exit__] itself raises comes
    first. *)
Definition with_ticket {A : Type} (t : KisEventTicket)
    (block : KisEventTicket -> W A) : W A :=
  v <- ticket_enter t ;;
  fun st =>
    match block v st with
    | (r, st1, t1) =>
        match ticket_exit t st1 with
        | (Ret _, st2, t2) => (r, st2, t1 ++ t2)
        | (Raise x, st2, t2) => (Raise x, st2, t1 ++ t2)
        end
    end.

(** The subscriptions whose action a trace shows called, in order. *)
Fixpoint called_callbacks (tr : list event) : list EventCallback :=
  match tr with
  | [] => []
  | Called h _ _ :: rest => h :: called_callbacks rest
  | Unsubscribed _ _ :: rest => called_callbacks rest
  end.

(** The predicate a filter carries: [where.filter] of a
    [KisLambdaEventFilter], the callable itself otherwise. *)
Definition where_predicate (w : where_obj) : callable :=
  match w with
  | WFilter x => flt_filter x
  | WCallable f => f
  end.

(** [KisEventTicket.__del__]: [self.unsubscribe()] *)
Definition KisEventTicket_del (t : KisEventTicket) : W unit :=
  unsubscribe t.

(** The program lets go of the last reference to a ticket: the
    interpreter runs [__del__] and ignores what it raises. *)
Definition finalize (t : KisEventTicket) : W unit :=
  fun st =>
    match KisEventTicket_del t st with
    | (_, st1, tr) => (Ret tt, st1, tr)
    end.

(** A run made from inside a user function, where calls are not
    recorded. *)
Definition quiet {A : Type} (c : W A) : M A :=
  fun st => fst (c st).

(** The program stores a ticket somewhere in its memory, which keeps the
    ticket alive; [keep] is what that does to the memory. *)
Definition keep_ticket (keep : KisEventTicket -> U -> U)
    (t : KisEventTicket) : M unit :=
  fun st => (Ret tt, with_mem (keep t (mem st)) st).

End Handler.

(** ** A concrete program to run the definitions on

    The interpreter's hashes are fixed to simple functions, the memory is
    one list of integers ([results]), and five functions exist:
    - [0] is [lambda s, e: results.append(e)];
    - [1] is the predicate [lambda s, e: e < 0];
    - [2] subscribes the function [3] to the handler, keeping the ticket;
    - [3] does nothing;
    - [9] does nothing, and releasing it fails. *)

Definition demo_hash_callable (f : callable) : Z := Z.of_nat f.

Definition demo_hash_None : Z := (-1)%Z.

Definition demo_hash_tuple (zs : list Z) : Z :=
  fold_left (fun acc z => (31 * acc + z)%Z) zs 7%Z.

Definition demo_add : EventCallback -> M (list Z) KisEventTicket :=
  add demo_hash_callable demo_hash_None demo_hash_tuple.

Definition demo_body (f : callable) (s : option nat) (e : Z)
  : M (list Z) unit :=
  match f with
  | 0 => fun st => (Ret tt, with_mem (mem st ++ [e]) st)
  | 2 => demo_add (Plain 3) ;; ret tt
  | _ => ret tt
  end.

Definition demo_pred (f : callable) (s : option nat) (e : Z)
  : M (list Z) bool :=
  match f with
  | 1 => ret (Z.ltb e 0)
  | _ => ret false
  end.

Definition demo_unsubscribed_body (g : callable) (t : KisEventTicket)
  : M (list Z) unit :=
  ret tt.

Definition demo_release_method (f : callable) (u : list Z)
  : outcome unit * list Z :=
  if Nat.eqb f 9 then (Raise (Exception 0), u) else (Ret tt, u).

Definition demo_on : callable -> option where_obj -> bool
                     -> M (list Z) KisEventTicket :=
  on demo_hash_callable demo_hash_None demo_hash_tuple.

Definition demo_once : callable -> option where_obj
                       -> M (list Z) KisEventTicket :=
  once demo_hash_callable demo_hash_None demo_hash_tuple.

Definition demo_remove : EventCallback -> M (list Z) unit :=
  remove demo_hash_callable demo_hash_None demo_hash_tuple demo_release_method.

Definition demo_invoke : option nat -> Z -> W (option nat) Z (list Z) unit :=
  invoke demo_hash_callable demo_hash_None demo_hash_tuple
         demo_body demo_pred demo_release_method.

Definition demo_contains : EventCallback -> M (list Z) bool :=
  contains demo_hash_callable demo_hash_None demo_hash_tuple.

(** [H = EventHandler()], [results = []] *)
Definition demo_start : state (list Z) :=
  {| handlers := []; next_id := 0; mem := [] |}.

(** The scenario
    [t = H.on(lambda s, e: results.append(e), where=lambda s, e: e < 0)],
    [H.invoke(None, 5)], [H.invoke(None, -1)]: the state after each step. *)
Definition filter_scenario_subscribed : state (list Z) :=
  snd (demo_on 0 (Some (WCallable 1)) false demo_start).

Definition filter_scenario_after_first : state (list Z) :=
  state_of (demo_invoke None 5%Z filter_scenario_subscribed).

Definition filter_scenario_after_second : state (list Z) :=
  state_of (demo_invoke None (-1)%Z filter_scenario_after_first).

Definition demo_unsubscribe
  : KisEventTicket -> W (option nat) Z (list Z) unit :=
  unsubscribe (option nat) Z demo_hash_callable demo_hash_None demo_hash_tuple
              demo_unsubscribed_body demo_release_method.

(** The wrapper [H.on(f)] makes on [demo_start] for the function [0],
    without a filter. *)
Definition unfiltered_wrapper : KisLambdaEventCallback :=
  {| cb_id := 0; cb_callback := 0; cb_where := None; cb_once := false |}.

(** The wrapper of the scenario above, with the filter [e < 0]. *)
Definition filtered_wrapper : KisLambdaEventCallback :=
  {| cb_id := 0; cb_callback := 0;
     cb_where := Some (WCallable 1); cb_once := false |}.

Definition demo_registered : KisEventTicket -> M (list Z) bool :=
  registered demo_hash_callable demo_hash_None demo_hash_tuple.

(** [t = H.once(f)] on [demo_start] for the function [0], without a
    filter: the ticket, and the state it leaves. *)
Definition once_ticket : KisEventTicket :=
  {| tk_callback :=
       Lambda {| cb_id := 0; cb_callback := 0;
                 cb_where := None; cb_once := true |};
     tk_unsubscribed_callbacks := [] |}.

Definition once_state : state (list Z) :=
  snd (demo_once 0 None demo_start).

(** A second wrapper object built from the same function and filter as
    [unfiltered_wrapper]. *)
Definition unfiltered_wrapper_again : KisLambdaEventCallback :=
  {| cb_id := 1; cb_callback := 0; cb_where := None; cb_once := false |}.

(** A handler holding the function [2] alone, and one holding the
    function [3] alone with a ticket for it that has one
    unsubscribed-callback, the function [7]. *)
Definition subscriber_state : state (list Z) :=
  {| handlers := [Plain 2]; next_id := 0; mem := [] |}.

Definition plain_state : state (list Z) :=
  {| handlers := [Plain 3]; next_id := 0; mem := [] |}.

Definition plain_ticket : KisEventTicket :=
  {| tk_callback := Plain 3; tk_unsubscribed_callbacks := [7] |}.

(** A wrapper around the function [9], whose release fails, registered
    alone. *)
Definition failing_release_wrapper : KisLambdaEventCallback :=
  {| cb_id := 0; cb_callback := 9; cb_where := None; cb_once := false |}.

Definition failing_release_state : state (list Z) :=
  {| handlers := [Lambda failing_release_wrapper]; next_id := 1; mem := [] |}.

(** * pykis.api.stock.daily_chart: trimming a chart

    [drop_after(chart, start, end)] from
    [src/pykis/api/stock/daily_chart.py].  A bar is known by the day of
    its [time] ([bar.time.date()], as the number of the day); a chart by
    its [bars] and by the rest of its attributes, which [drop_after] does
    not touch.  [bar.time.replace(tzinfo=...)] builds a new [datetime]
    that is thrown away, so it leaves no trace here. *)

Section DailyChart.

Variable Bar : Type.
Variable bar_date : Bar -> Z.
Variable Rest : Type.

Record chart : Type := {
  bars : list Bar;
  chart_rest : Rest
}.

(** [start and bar.time.date() < start]: a [date] is always truthy, so
    the test is about [None] only. *)
Definition before_start (start : option Z) (bar : Bar) : bool :=
  match start with
  | Some d => Z.ltb (bar_date bar) d
  | None => false
  end.

(** [end and bar.time.date() > end] *)
Definition after_end (end_ : option Z) (bar : Bar) : bool :=
  match end_ with
  | Some d => Z.ltb d (bar_date bar)
  | None => false
  end.

(** The loop over [chart.bars]; [acc] is the list [bars] being built. *)
Fixpoint drop_after_loop (start end_ : option Z)
    (xs : list Bar) (acc : list Bar) : list Bar :=
  match xs with
  | [] => acc
  | bar :: rest =>
      if before_start start bar then acc                        (* break *)
      else if after_end end_ bar
           then drop_after_loop start end_ rest acc             (* continue *)
           else drop_after_loop start end_ rest (bar :: acc)    (* insert(0, bar) *)
  end.

(** [drop_after] *)
Definition drop_after (c : chart) (start end_ : option Z) : chart :=
  {| bars := drop_after_loop start end_ (bars c) [];
     chart_rest := chart_rest c |}.

(** A bar's day lies within the bounds that are given. *)
Definition in_range (start end_ : option Z) (bar : Bar) : bool :=
  negb (before_start start bar) && negb (after_end end_ bar).

(** Newest first, as the bars come from the server; oldest first. *)
Fixpoint descending (xs : list Bar) : Prop :=
  match xs with
  | [] => True
  | x :: rest => Forall (fun y => (bar_date y <= bar_date x)%Z) rest
                 /\ descending rest
  end.

Fixpoint ascending (xs : list Bar) : Prop :=
  match xs with
  | [] => True
  | x :: rest => Forall (fun y => (bar_date x <= bar_date y)%Z) rest
                 /\ ascending rest
  end.

End DailyChart.

(** A chart to run [drop_after] on: the bars are their own days, newest
    first. *)
Definition demo_chart : chart Z unit :=
  {| bars := [50; 40; 30; 20; 10]%Z; chart_rest := tt |}.

(** A handler holding the functions [2] and [3]. *)
Definition two_member_state : state (list Z) :=
  {| handlers := [Plain 2; Plain 3]; next_id := 0; mem := [] |}.

(** A one-shot wrapper around the function [9], whose release fails, with
    a filter that lets every event through; and a handler holding it
    between two plain functions. *)
Definition failing_once_wrapper : KisLambdaEventCallback :=
  {| cb_id := 5; cb_callback := 9;
     cb_where := Some (WCallable 3); cb_once := true |}.

Definition fail_fast_state : state (list Z) :=
  {| handlers := [Plain 0; Lambda failing_once_wrapper; Plain 3];
     next_id := 6; mem := [] |}.

(** A block for a [with] statement that raises at once. *)
Definition raising_block (t : KisEventTicket)
  : W (option nat) Z (list Z) unit :=
  fun st => (Raise (Exception 1), st, []).

(** A chart whose bars are not in order. *)
Definition unordered_chart : chart Z unit :=
  {| bars := [50; 10; 30]%Z; chart_rest := tt |}.

(** The concrete program with two more functions: [4] subscribes the
    function [3] and lets go of the ticket ([H.add(f3)] as a statement);
    [5] raises. *)
Definition scenario_body (f : callable) (s : option nat) (e : Z)
  : M (list Z) unit :=
  match f with
  | 4 => t <- demo_add (Plain 3) ;;
         quiet (finalize (option nat) Z demo_hash_callable demo_hash_None
                  demo_hash_tuple demo_unsubscribed_body
                  demo_release_method t)
  | 5 => fun st => (Raise (Exception 2), st)
  | _ => demo_body f s e
  end.

Definition scenario_invoke
  : option nat -> Z -> W (option nat) Z (list Z) unit :=
  invoke demo_hash_callable demo_hash_None demo_hash_tuple
         scenario_body demo_pred demo_release_method.

(** A handler holding the function [4] alone. *)
Definition discarding_state : state (list Z) :=
  {| handlers := [Plain 4]; next_id := 0; mem := [] |}.

(** A handler holding the one-shot wrapper whose release fails, alone. *)
Definition failing_once_state : state (list Z) :=
  {| handlers := [Lambda failing_once_wrapper]; next_id := 6; mem := [] |}.

(** Two subscriptions of the raising function [5], each with a filter
    that answers [False], and a handler holding both. *)
Definition raising_first : KisLambdaEventCallback :=
  {| cb_id := 0; cb_callback := 5;
     cb_where := Some (WCallable 3); cb_once := false |}.

Definition raising_second : KisLambdaEventCallback :=
  {| cb_id := 1; cb_callback := 5;
     cb_where := Some (WCallable 3); cb_once := false |}.

Definition raising_pair_state : state (list Z) :=
  {| handlers := [Lambda raising_first; Lambda raising_second];
     next_id := 2; mem := [] |}.

(** * Properties *)

Unset Implicit Arguments.

Section Properties.

Context {Sender Args U : Type}.
Variable hash_callable : callable -> Z.
Variable hash_None : Z.
Variable hash_tuple : list Z -> Z.
Variable body : callable -> Sender -> Args -> M U unit.
Variable pred : callable -> Sender -> Args -> M U bool.
Variable unsubscribed_body : callable -> KisEventTicket -> M U unit.
Variable release_method : callable -> U -> outcome unit * U.

Local Abbreviation py_hash := (py_hash hash_callable hash_None hash_tuple).
Local Abbreviation same_key := (same_key hash_callable hash_None hash_tuple).
Local Abbreviation set_contains :=
  (set_contains hash_callable hash_None hash_tuple).
Local Abbreviation set_add := (set_add hash_callable hash_None hash_tuple).
Local Abbreviation set_remove := (set_remove hash_callable hash_None hash_tuple).
Local Abbreviation add := (@add U hash_callable hash_None hash_tuple).
Local Abbreviation on := (@on U hash_callable hash_None hash_tuple).
Local Abbreviation once := (@once U hash_callable hash_None hash_tuple).
Local Abbreviation contains := (@contains U hash_callable hash_None hash_tuple).
Local Abbreviation registered :=
  (@registered U hash_callable hash_None hash_tuple).
Local Abbreviation handlers_remove :=
  (@handlers_remove U hash_callable hash_None hash_tuple).
Local Abbreviation release_hook := (release_hook release_method).
Local Abbreviation remove :=
  (remove hash_callable hash_None hash_tuple release_method).
Local Abbreviation call := (call body).
Local Abbreviation lift := (lift Sender Args).
Local Abbreviation len := (@len U).
Local Abbreviation clear := (@clear U).
Local Abbreviation set_of_list :=
  (set_of_list hash_callable hash_None hash_tuple).
Local Abbreviation set_eq := (set_eq hash_callable hash_None hash_tuple).
Local Abbreviation KisEventHandler_init :=
  (@KisEventHandler_init U hash_callable hash_None hash_tuple).
Local Abbreviation KisEventHandler_bool := (@KisEventHandler_bool U).
Local Abbreviation KisEventHandler_eq :=
  (@KisEventHandler_eq U hash_callable hash_None hash_tuple).
Local Abbreviation KisEventHandler_ne :=
  (@KisEventHandler_ne U hash_callable hash_None hash_tuple).
Local Abbreviation KisEventTicket_eq :=
  (@KisEventTicket_eq U hash_callable hash_None hash_tuple).
Local Abbreviation KisEventTicket_ne :=
  (@KisEventTicket_ne U hash_callable hash_None hash_tuple).
Local Abbreviation KisLambdaEventCallback_call :=
  (KisLambdaEventCallback_call hash_callable hash_None hash_tuple
     body pred release_method).
Local Abbreviation ticket_exit :=
  (ticket_exit Sender Args hash_callable hash_None hash_tuple
     unsubscribed_body release_method).
Local Abbreviation with_ticket :=
  (with_ticket hash_callable hash_None hash_tuple
     unsubscribed_body release_method).
Local Abbreviation finalize :=
  (finalize Sender Args hash_callable hash_None hash_tuple
     unsubscribed_body release_method).
Local Abbreviation apply_where := (apply_where pred).
Local Abbreviation KisLambdaEventCallback_filter :=
  (KisLambdaEventCallback_filter pred).
Local Abbreviation KisLambdaEventCallback_callback :=
  (KisLambdaEventCallback_callback hash_callable hash_None hash_tuple
     body release_method).
Local Abbreviation invoke_one :=
  (invoke_one hash_callable hash_None hash_tuple body pred release_method).
Local Abbreviation invoke :=
  (invoke hash_callable hash_None hash_tuple body pred release_method).
Local Abbreviation unsubscribe :=
  (unsubscribe Sender Args hash_callable hash_None hash_tuple
     unsubscribed_body release_method).
Local Abbreviation KisEventHandler_hash := (@KisEventHandler_hash U).
Local Abbreviation KisEventTicket_hash :=
  (@KisEventTicket_hash U hash_callable hash_None hash_tuple).

(** ** Equality and set membership *)

Lemma KisLambdaEventFilter_eqb_eq (a b : KisLambdaEventFilter) :
  KisLambdaEventFilter_eqb a b = true <-> a = b.
Proof.
  unfold KisLambdaEventFilter_eqb. destruct a as [i f], b as [j g]; simpl.
  rewrite andb_true_iff, !Nat.eqb_eq. split.
  - intros [-> ->]. reflexivity.
  - intros E. inversion E. auto.
Qed.

Lemma where_eqb_eq (a b : option where_obj) : where_eqb a b = true <-> a = b.
Proof.
  destruct a as [[x|f]|], b as [[y|g]|]; simpl;
    try (split; [discriminate | intros E; inversion E]; fail).
  - rewrite KisLambdaEventFilter_eqb_eq. split; [intros -> | intros E; inversion E]; reflexivity.
  - rewrite Nat.eqb_eq. split; [intros -> | intros E; inversion E]; reflexivity.
  - split; reflexivity.
Qed.

Lemma KisLambdaEventCallback_eqb_eq (a b : KisLambdaEventCallback) :
  KisLambdaEventCallback_eqb a b = true <-> a = b.
Proof.
  unfold KisLambdaEventCallback_eqb.
  destruct a as [i f w o], b as [j g v p]; simpl.
  rewrite !andb_true_iff, !Nat.eqb_eq, where_eqb_eq, Bool.eqb_true_iff. split.
  - intros [[[-> ->] ->] ->]. reflexivity.
  - intros E. inversion E. auto.
Qed.

Lemma py_eq_eq (a b : EventCallback) : py_eq a b = true <-> a = b.
Proof.
  destruct a as [f|x], b as [g|y]; simpl;
    try (split; [discriminate | intros E; inversion E]; fail).
  - rewrite Nat.eqb_eq. split; [intros -> | intros E; inversion E]; reflexivity.
  - rewrite KisLambdaEventCallback_eqb_eq.
    split; [intros -> | intros E; inversion E]; reflexivity.
Qed.

(** The hash test never rejects what [==] accepts: equal objects have
    equal hashes. *)
Lemma same_key_eq (x y : EventCallback) : same_key x y = true <-> y = x.
Proof.
  unfold same_key. rewrite andb_true_iff, py_eq_eq, Z.eqb_eq. split.
  - intros [_ E]. exact E.
  - intros ->. split; reflexivity.
Qed.

Lemma set_contains_In (x : EventCallback) (s : list EventCallback) :
  set_contains x s = true <-> In x s.
Proof.
  unfold set_contains. rewrite existsb_exists. split.
  - intros [y [Hy E]]. apply same_key_eq in E. subst y. exact Hy.
  - intros Hx. exists x. split; [exact Hx | apply same_key_eq; reflexivity].
Qed.

Lemma set_contains_false (x : EventCallback) (s : list EventCallback) :
  set_contains x s = false <-> ~ In x s.
Proof.
  rewrite <- set_contains_In. destruct (set_contains x s); split; congruence.
Qed.

(** What is left of a set once [x] is taken out. *)
Lemma discard_not_In (x : EventCallback) (s : list EventCallback) :
  ~ In x (filter (fun y => negb (same_key x y)) s).
Proof.
  rewrite filter_In. intros [_ E].
  rewrite (proj2 (same_key_eq x x) eq_refl) in E. discriminate.
Qed.

Lemma discard_absent (x : EventCallback) (s : list EventCallback) :
  ~ In x s -> filter (fun y => negb (same_key x y)) s = s.
Proof.
  induction s as [|y s IH]; simpl; intros Hx.
  - reflexivity.
  - destruct (same_key x y) eqn:E; simpl.
    + apply same_key_eq in E. subst y. exfalso. apply Hx. left. reflexivity.
    + f_equal. apply IH. intros H. apply Hx. right. exact H.
Qed.

Lemma set_add_In (x y : EventCallback) (s : list EventCallback) :
  In y (set_add x s) <-> y = x \/ In y s.
Proof.
  unfold set_add. destruct (set_contains x s) eqn:E.
  - apply set_contains_In in E. split; [auto | intros [-> | H]; assumption].
  - rewrite in_app_iff. simpl. split.
    + intros [H | [H | []]]; auto.
    + intros [H | H]; auto.
Qed.

(** ** [remove], step by step *)

(** The release comes first and works on the memory only; when it
    returns, the callback is taken out of the set, and a callback that was
    not there leaves the set as it was. *)
Lemma remove_eq (h : EventCallback) (st : state U) :
  remove h st =
  match release_method (released_callable h) (mem st) with
  | (Ret _, u) =>
      (Ret tt,
       with_handlers (filter (fun y => negb (same_key h y)) (handlers st))
                     (with_mem u st))
  | (Raise x, u) => (Raise x, with_mem u st)
  end.
Proof.
  unfold remove, release_hook, KisLambdaEventCallback_del, call_release_method.
  destruct h as [f|l]; simpl in *;
    destruct (release_method _ (mem st)) as [[[]|x] u]; simpl; try reflexivity;
    unfold except_KeyError_pass, handlers_remove, set_remove; simpl;
    (destruct (set_contains _ (handlers st)) eqn:C; simpl; [reflexivity|]);
    apply set_contains_false in C; rewrite (discard_absent _ _ C); reflexivity.
Qed.

Lemma remove_returns_absent (h : EventCallback) (st st1 : state U) :
  remove h st = (Ret tt, st1) -> set_contains h (handlers st1) = false.
Proof.
  rewrite remove_eq.
  destruct (release_method _ (mem st)) as [[[]|x] u]; intros E; inversion E.
  simpl. apply set_contains_false. apply discard_not_In.
Qed.

(** ** Loops *)

Lemma for_each_cons_W (A : Type) (k : A -> W Sender Args U unit)
    (x : A) (xs : list A) (st : state U) :
  for_each (x :: xs) k st =
  match k x st with
  | (Ret _, st1, t1) =>
      match for_each xs k st1 with
      | (r, st2, t2) => (r, st2, t1 ++ t2)
      end
  | (Raise y, st1, t1) => (Raise y, st1, t1)
  end.
Proof. reflexivity. Qed.

(** What holds of every call a step can make holds of every call of the
    loop. *)
Lemma for_each_trace_Forall (A : Type) (P : event Sender Args -> Prop)
    (k : A -> W Sender Args U unit) (xs : list A) :
  (forall x st, In x xs -> Forall P (trace_of (k x st))) ->
  forall st, Forall P (trace_of (for_each xs k st)).
Proof.
  induction xs as [|x xs IH]; intros Hk st.
  - constructor.
  - rewrite for_each_cons_W.
    pose proof (Hk x st (or_introl eq_refl)) as Hx.
    destruct (k x st) as [[[[]|y] st1] t1]; simpl in *.
    + assert (Hrest : Forall P (trace_of (for_each xs k st1))).
      { apply IH. intros z st' Hz. apply Hk. right. exact Hz. }
      destruct (for_each xs k st1) as [[r st2] t2]; simpl in *.
      apply Forall_app. split; assumption.
    + exact Hx.
Qed.

(** ** One step of [invoke] *)

Lemma call_eq (h : EventCallback) (f : callable) (s : Sender) (e : Args)
    (st : state U) :
  call h f s e st =
  (fst (body f s e st), snd (body f s e st), [Called h s e]).
Proof.
  unfold call, tell, lift. simpl.
  destruct (body f s e st) as [r st1]. reflexivity.
Qed.

(** A step calls nothing, or calls the action of its own subscription
    with the event of the pass. *)
Lemma invoke_one_trace (s : Sender) (e : Args) (h : EventCallback)
    (st : state U) :
  trace_of (invoke_one s e h st) = []
  \/ trace_of (invoke_one s e h st) = [Called h s e].
Proof.
  destruct h as [f|l].
  - right. unfold invoke_one. rewrite call_eq. reflexivity.
  - unfold invoke_one, lift. simpl.
    destruct (KisLambdaEventCallback_filter l s e st) as [[b|x] st1]; simpl.
    + destruct b; simpl.
      * left. reflexivity.
      * unfold KisLambdaEventCallback_callback. simpl.
        destruct (cb_once l); simpl.
        -- unfold lift. destruct (remove (Lambda l) st1) as [[[]|x] st2]; simpl.
           ++ right. rewrite call_eq. reflexivity.
           ++ left. reflexivity.
        -- right. rewrite call_eq. reflexivity.
    + left. reflexivity.
Qed.

(** A wrapper without a filter is skipped: its [__filter__] answers
    [True], which [invoke] reads as "ignore". *)
Lemma invoke_one_no_filter (s : Sender) (e : Args)
    (l : KisLambdaEventCallback) (st : state U) :
  cb_where l = None -> invoke_one s e (Lambda l) st = (Ret tt, st, []).
Proof.
  intros Hw. unfold invoke_one, lift, KisLambdaEventCallback_filter.
  rewrite Hw. reflexivity.
Qed.

Lemma invoke_eq (s : Sender) (e : Args) (st : state U) :
  invoke s e st = for_each (handlers st) (invoke_one s e) st.
Proof.
  unfold invoke, lift, handlers_copy. simpl.
  destruct (for_each (handlers st) (invoke_one s e) st) as [[r st1] t1].
  reflexivity.
Qed.

(** A loop that returns has run every one of its steps. *)
Lemma for_each_reaches (A : Type) (k : A -> W Sender Args U unit)
    (x0 : A) (ev : event Sender Args) :
  (forall st, result_of (k x0 st) = Ret tt -> In ev (trace_of (k x0 st))) ->
  forall xs st,
    In x0 xs ->
    result_of (for_each xs k st) = Ret tt ->
    In ev (trace_of (for_each xs k st)).
Proof.
  intros Hk. induction xs as [|x xs IH]; intros st Hin Hret.
  - destruct Hin.
  - rewrite for_each_cons_W in *.
    pose proof (Hk st) as Hx.
    destruct (k x st) as [[[[]|y] st1] t1] eqn:E1.
    + specialize (IH st1).
      destruct (for_each xs k st1) as [[r st2] t2]. simpl in *.
      apply in_or_app. destruct Hin as [-> | Hin].
      * left. rewrite E1 in Hx. apply Hx. reflexivity.
      * right. apply IH; assumption.
    + discriminate.
Qed.

(** The step of [invoke] at a wrapper that has a filter. *)
Lemma invoke_one_filtered (l : KisLambdaEventCallback) (w : where_obj)
    (s : Sender) (e : Args) (b : bool) (st st1 : state U) :
  cb_where l = Some w ->
  apply_where w s e st = (Ret b, st1) ->
  invoke_one s e (Lambda l) st =
  if b then (Ret tt, st1, [])
  else KisLambdaEventCallback_callback l s e st1.
Proof.
  intros Hw Hf. unfold invoke_one, lift, KisLambdaEventCallback_filter.
  rewrite Hw. simpl. rewrite Hf. destruct b; simpl.
  - reflexivity.
  - destruct (KisLambdaEventCallback_callback l s e st1) as [[r st2] t2].
    reflexivity.
Qed.

(** [__callback__] that returns has called the action. *)
Lemma callback_returns_called (l : KisLambdaEventCallback)
    (s : Sender) (e : Args) (st : state U) :
  result_of (KisLambdaEventCallback_callback l s e st) = Ret tt ->
  trace_of (KisLambdaEventCallback_callback l s e st) = [Called (Lambda l) s e].
Proof.
  unfold KisLambdaEventCallback_callback. simpl.
  destruct (cb_once l); simpl.
  - unfold lift. destruct (remove (Lambda l) st) as [[[]|x] st1]; simpl.
    + rewrite call_eq. reflexivity.
    + discriminate.
  - rewrite call_eq. reflexivity.
Qed.

(** Whatever [invoke] calls is the action of a member of the set as it was
    when the pass began, called with the event of the pass; and a wrapper
    that is called has a filter. *)
Lemma invoke_trace_sound (s : Sender) (e : Args) (st : state U)
    (h : EventCallback) (s' : Sender) (e' : Args) :
  In (Called h s' e') (trace_of (invoke s e st)) ->
  In h (handlers st) /\ Called h s' e' = Called h s e
  /\ (forall l, h = Lambda l -> cb_where l <> None).
Proof.
  rewrite invoke_eq. intros Hin.
  pose (P := fun ev : event Sender Args =>
               exists x, ev = Called x s e /\ In x (handlers st)
                         /\ (forall l, x = Lambda l -> cb_where l <> None)).
  assert (HP : Forall P (trace_of (for_each (handlers st) (invoke_one s e) st))).
  { apply for_each_trace_Forall. intros x st0 Hx.
    destruct (invoke_one_trace s e x st0) as [E | E]; rewrite E.
    - constructor.
    - constructor; [|constructor]. exists x. split; [reflexivity|].
      split; [exact Hx|]. intros l -> Hw.
      rewrite (invoke_one_no_filter s e l st0 Hw) in E. discriminate. }
  rewrite Forall_forall in HP. destruct (HP _ Hin) as [x [E [Hx Hw]]].
  inversion E; subst. auto.
Qed.

Lemma on_eq (f : callable) (w : option where_obj) (o : bool) (st : state U) :
  on f w o st =
  (Ret {| tk_callback :=
            Lambda {| cb_id := next_id st; cb_callback := f;
                      cb_where := w; cb_once := o |};
          tk_unsubscribed_callbacks := [] |},
   {| handlers :=
        set_add (Lambda {| cb_id := next_id st; cb_callback := f;
                           cb_where := w; cb_once := o |}) (handlers st);
      next_id := S (next_id st);
      mem := mem st |}).
Proof. reflexivity. Qed.

(** [on] on a handler that holds nothing: the new wrapper is its one
    member. *)
Lemma on_empty (f : callable) (w : option where_obj) (o : bool)
    (st st1 : state U) (t : KisEventTicket) :
  handlers st = [] ->
  on f w o st = (Ret t, st1) ->
  exists l, tk_callback t = Lambda l /\ handlers st1 = [Lambda l]
            /\ cb_callback l = f /\ cb_where l = w /\ cb_once l = o.
Proof.
  intros Hh. rewrite on_eq, Hh. intros E. inversion E; subst; clear E.
  eexists. split; [reflexivity|]. repeat split; reflexivity.
Qed.

Lemma invoke_single_no_filter (s : Sender) (e : Args)
    (l : KisLambdaEventCallback) (st : state U) :
  handlers st = [Lambda l] -> cb_where l = None ->
  invoke s e st = (Ret tt, st, []).
Proof.
  intros Hh Hw. rewrite invoke_eq, Hh, for_each_cons_W.
  rewrite (invoke_one_no_filter s e l st Hw). reflexivity.
Qed.

(** ** Subscribing without a filter *)

(** C1, as the code has it.  The claim is that after [t = H.on(fn)] with
    no filter every [H.invoke(sender, e)] calls [fn].  In the code the
    wrapper's [__filter__] answers [True] when [where] is [None], and
    [invoke] calls the action only when [__filter__] answers [False]: no
    pass, on any state of the handler, ever calls the action of that
    subscription, and on a handler that held nothing else the pass calls
    nothing and changes nothing. *)
Theorem on_without_filter_never_delivers
    (f : callable) (o : bool) (s : Sender) (e : Args)
    (st st1 : state U) (t : KisEventTicket) :
  on f None o st = (Ret t, st1) ->
  (forall s0 e0 st0 s' e',
      ~ In (Called (tk_callback t) s' e') (trace_of (invoke s0 e0 st0)))
  /\ (handlers st = [] -> invoke s e st1 = (Ret tt, st1, [])).
Proof.
  rewrite on_eq. intros E. inversion E; subst; clear E.
  set (l0 := {| cb_id := next_id st; cb_callback := f;
                cb_where := None; cb_once := o |}).
  simpl. split.
  - intros s0 e0 st0 s' e' Hin.
    apply invoke_trace_sound in Hin. destruct Hin as [_ [_ Hw]].
    apply (Hw _ eq_refl). reflexivity.
  - intros Hh. apply invoke_single_no_filter with (l := l0).
    + simpl. rewrite Hh. reflexivity.
    + reflexivity.
Qed.

(** With a filter that lets the event through, the one-shot mechanism
    itself works: the wrapper is taken out of the set, then the action is
    called, once; and a pass over a handler that holds nothing calls
    nothing. *)
Lemma once_with_passing_filter
    (f : callable) (w : where_obj) (s : Sender) (e : Args) (u : U)
    (st st1 : state U) (t : KisEventTicket) :
  handlers st = [] ->
  once f (Some w) st = (Ret t, st1) ->
  apply_where w s e st1 = (Ret false, st1) ->
  release_method f (mem st1) = (Ret tt, u) ->
  invoke s e st1 =
  (fst (body f s e (with_handlers [] (with_mem u st1))),
   snd (body f s e (with_handlers [] (with_mem u st1))),
   [Called (tk_callback t) s e]).
Proof.
  intros Hh E Hf Hr. unfold once in E.
  destruct (on_empty _ _ _ _ _ _ Hh E) as [l [Ht [Hs [Hc [Hw Ho]]]]].
  rewrite invoke_eq, Hs, for_each_cons_W.
  rewrite (invoke_one_filtered l w s e false st1 st1 Hw Hf).
  unfold KisLambdaEventCallback_callback. rewrite Ho. simpl.
  unfold lift. rewrite remove_eq. simpl. rewrite Hc, Hr, Hs. simpl.
  rewrite (proj2 (same_key_eq (Lambda l) (Lambda l)) eq_refl). simpl.
  rewrite call_eq, Ht.
  destruct (body f s e _) as [[[]|x] st2]; reflexivity.
Qed.

Lemma invoke_empty (s : Sender) (e : Args) (st : state U) :
  handlers st = [] -> invoke s e st = (Ret tt, st, []).
Proof. intros Hh. rewrite invoke_eq, Hh. reflexivity. Qed.

(** C2, as the code has it.  The claim's scenario is [t = H.once(cb)]
    with no filter, after which one [H.invoke(s, e)] should call [cb] once
    and leave [t.registered] false.  For the reason given at C1 the pass
    calls nothing and changes nothing, so [cb] has been called zero times
    and the ticket is still registered, after the first pass and after
    every later one. *)
Theorem once_without_filter_is_never_consumed
    (f : callable) (s : Sender) (e : Args)
    (st st1 : state U) (t : KisEventTicket) :
  handlers st = [] ->
  once f None st = (Ret t, st1) ->
  invoke s e st1 = (Ret tt, st1, [])
  /\ registered t st1 = (Ret true, st1).
Proof.
  intros Hh E. unfold once in E.
  destruct (on_empty _ _ _ _ _ _ Hh E) as [l [Ht [Hs [_ [Hw _]]]]]. split.
  - exact (invoke_single_no_filter s e l st1 Hs Hw).
  - unfold registered, contains. rewrite Ht, Hs. f_equal. f_equal.
    apply set_contains_In. left. reflexivity.
Qed.

(** ** Unsubscribing *)

Lemma unsubscribe_eq (t : KisEventTicket) (st : state U) :
  unsubscribe t st = lift (remove (tk_callback t)) st.
Proof.
  unfold unsubscribe, lift, registered, contains. simpl.
  destruct (remove (tk_callback t) st) as [[[]|x] st1] eqn:E; simpl.
  - rewrite (remove_returns_absent _ _ _ E). reflexivity.
  - reflexivity.
Qed.

(** C5, as the code has it.  The claim is that the ticket's
    unsubscribed-callbacks run exactly when the callback was in the set at
    the moment of the call.  [unsubscribe] reads [self.registered] after
    [remove] has run, when the callback is no longer in the set: it calls
    none of them, whether the callback was there or not.  The removal
    itself is done. *)
Theorem unsubscribe_never_notifies (t : KisEventTicket) (st : state U) :
  trace_of (unsubscribe t st) = []
  /\ (result_of (unsubscribe t st) = Ret tt ->
      set_contains (tk_callback t)
        (handlers (state_of (unsubscribe t st))) = false).
Proof.
  rewrite unsubscribe_eq. unfold lift, trace_of, result_of, state_of.
  destruct (remove (tk_callback t) st) as [r st1] eqn:E; simpl. split.
  - reflexivity.
  - intros ->. exact (remove_returns_absent _ _ _ E).
Qed.

(** ** Hashing handlers and tickets *)

(** C10.  [KisEventHandler.__hash__] hashes the built-in set
    [self.handlers] and so raises [TypeError]; [KisEventTicket.__hash__]
    hashes the pair of the handler and the callback, the handler first,
    and so raises too. *)
Theorem handler_and_ticket_hash_raise (t : KisEventTicket) (st : state U) :
  KisEventHandler_hash st = Raise TypeError
  /\ KisEventTicket_hash t st = Raise TypeError.
Proof.
  split.
  - unfold KisEventHandler_hash, hash_set. reflexivity.
  - unfold KisEventTicket_hash, hash_of_tuple. simpl. reflexivity.
Qed.

(** ** Filters *)

(** C4, amended.  Take a subscription that carries a filter, whose
    predicate answers [b] on [(sender, e)].  When [b] is [True] no pass
    calls the subscription's action with that event.  In a pass of
    [invoke] that runs to its end (nothing raised on the way), the
    subscription's action is called if and only if [b] is [False]. *)
Theorem filter_polarity
    (l : KisLambdaEventCallback) (w : where_obj)
    (s : Sender) (e : Args) (b : bool) (st : state U) :
  cb_where l = Some w ->
  In (Lambda l) (handlers st) ->
  (forall st', fst (pred (where_predicate w) s e st') = Ret b) ->
  (b = true -> ~ In (Called (Lambda l) s e) (trace_of (invoke s e st)))
  /\ (result_of (invoke s e st) = Ret tt ->
      (In (Called (Lambda l) s e) (trace_of (invoke s e st)) <-> b = false)).
Proof.
  intros Hw Hin Hp.
  assert (Hf : forall st', fst (apply_where w s e st') = Ret b).
  { intros st'. unfold apply_where, KisLambdaEventFilter_filter.
    destruct w as [x|f]; apply Hp. }
  clear Hp. rewrite invoke_eq in *.
  assert (Hno : In (Called (Lambda l) s e)
                   (trace_of (for_each (handlers st) (invoke_one s e) st)) ->
                b = false).
  { intros Hc.
    pose (P := fun ev : event Sender Args =>
                 ev = Called (Lambda l) s e -> b = false).
    assert (HP : Forall P (trace_of (for_each (handlers st) (invoke_one s e) st))).
    { apply for_each_trace_Forall. intros x st0 _.
      destruct (invoke_one_trace s e x st0) as [E | E]; rewrite E.
      - constructor.
      - constructor; [|constructor]. intros Ex. inversion Ex; subst x.
        pose proof (Hf st0) as Hb.
        destruct (apply_where w s e st0) as [r st1] eqn:Ew. simpl in Hb. subst r.
        rewrite (invoke_one_filtered l w s e b st0 st1 Hw Ew) in E.
        destruct b; [discriminate | reflexivity]. }
    rewrite Forall_forall in HP. exact (HP _ Hc eq_refl). }
  split.
  - intros -> Hc. specialize (Hno Hc). discriminate.
  - intros Hret. split; [exact Hno|].
    intros ->. apply for_each_reaches with (x0 := Lambda l);
      [|exact Hin|exact Hret].
    intros st0 Hr. pose proof (Hf st0) as Hb.
    destruct (apply_where w s e st0) as [r st1] eqn:Ew. simpl in Hb. subst r.
    rewrite (invoke_one_filtered l w s e false st0 st1 Hw Ew) in *.
    rewrite (callback_returns_called l s e st1 Hr). left. reflexivity.
Qed.

(** ** Dispatch works on a snapshot *)

(** C7, amended.  A callback [B] that is not in the set when the pass
    begins is not called during the pass, whatever the callbacks that run
    do.  In particular, when the set holds only [A], [A] is dispatched by
    calling its action [fA], and [fA] subscribes [B]: the pass calls [A]
    and nothing else; [B] is a member afterwards when [fA] keeps the
    ticket that [add] returned, and is not a member afterwards when [fA]
    lets go of that ticket, whose finalizer unsubscribes [B] at once
    (given that the release of [B] returns). *)
Theorem snapshot_isolation
    (A B : EventCallback) (fA : callable)
    (s : Sender) (e : Args) (st : state U) :
  ~ In B (handlers st) ->
  (forall s' e', ~ In (Called B s' e') (trace_of (invoke s e st)))
  /\ (handlers st = [A] ->
      (forall st', invoke_one s e A st' = call A fA s e st') ->
      (forall keep,
          (forall st', body fA s e st'
                       = (t <- add B ;; keep_ticket keep t) st') ->
          invoke s e st
          = (Ret tt,
             with_mem
               (keep {| tk_callback := B; tk_unsubscribed_callbacks := [] |}
                     (mem st))
               (with_handlers [A; B] st),
             [Called A s e]))
      /\ ((forall st', body fA s e st'
                       = (t <- add B ;; quiet (finalize t)) st') ->
          fst (release_method (released_callable B) (mem st)) = Ret tt ->
          result_of (invoke s e st) = Ret tt
          /\ trace_of (invoke s e st) = [Called A s e]
          /\ handlers (state_of (invoke s e st)) = [A])).
Proof.
  intros HB. split.
  - intros s' e' Hin. apply invoke_trace_sound in Hin. apply HB, Hin.
  - intros Hh HA.
    assert (Hadd : set_add B (handlers st) = [A; B]).
    { unfold set_add.
      rewrite (proj2 (set_contains_false B (handlers st)) HB), Hh.
      reflexivity. }
    split.
    + intros keep Hbody.
      rewrite invoke_eq, Hh, for_each_cons_W, HA, call_eq, Hbody.
      simpl. rewrite Hadd. reflexivity.
    + intros Hbody Hrel.
      rewrite invoke_eq, Hh, for_each_cons_W, HA, call_eq, Hbody.
      simpl. unfold quiet, finalize, KisEventTicket_del.
      rewrite unsubscribe_eq. unfold lift. rewrite remove_eq. simpl.
      destruct (release_method (released_callable B) (mem st))
        as [[[]|x] u]; simpl in *; [|discriminate].
      rewrite Hadd. simpl.
      assert (HAB : same_key B A = false).
      { destruct (same_key B A) eqn:E; [|reflexivity].
        apply same_key_eq in E. subst A. exfalso. apply HB.
        rewrite Hh. left. reflexivity. }
      rewrite HAB, (proj2 (same_key_eq B B) eq_refl). simpl.
      repeat split.
Qed.

(** ** Membership of wrappers *)

(** C6, as the code has it.  The claim is that two wrappers built from the
    same function and the same filter are one member of the set.  They do
    have the same hash, but [KisLambdaEventCallback] defines no [__eq__],
    so two wrapper objects are never equal: with both tickets kept,
    adding both wrappers to an empty handler leaves two members, two [on]
    calls with the same arguments leave two members, and [remove] called
    with the second wrapper does not take the first one out. *)
Theorem equal_valued_wrappers_stay_distinct
    (l1 l2 : KisLambdaEventCallback) (st : state U) :
  cb_callback l1 = cb_callback l2 ->
  cb_where l1 = cb_where l2 ->
  cb_id l1 <> cb_id l2 ->
  handlers st = [] ->
  py_hash (Lambda l1) = py_hash (Lambda l2)
  /\ (t1 <- add (Lambda l1) ;; t2 <- add (Lambda l2) ;;
      n <- len ;; ret (t1, t2, n)) st
     = (Ret ({| tk_callback := Lambda l1; tk_unsubscribed_callbacks := [] |},
             {| tk_callback := Lambda l2; tk_unsubscribed_callbacks := [] |},
             2),
        with_handlers [Lambda l1; Lambda l2] st)
  /\ (forall f w o,
        fst ((t1 <- on f w o ;; t2 <- on f w o ;;
              n <- len ;; ret (t1, t2, n)) st)
        = Ret ({| tk_callback :=
                    Lambda {| cb_id := next_id st; cb_callback := f;
                              cb_where := w; cb_once := o |};
                  tk_unsubscribed_callbacks := [] |},
               {| tk_callback :=
                    Lambda {| cb_id := S (next_id st); cb_callback := f;
                              cb_where := w; cb_once := o |};
                  tk_unsubscribed_callbacks := [] |},
               2))
  /\ (forall st1,
        handlers st1 = [Lambda l1] ->
        handlers (snd (remove (Lambda l2) st1)) = [Lambda l1]).
Proof.
  intros Hc Hw Hid Hh.
  assert (Hne : Lambda l1 <> Lambda l2).
  { intros E. inversion E. subst. apply Hid. reflexivity. }
  assert (Hk : same_key (Lambda l2) (Lambda l1) = false).
  { destruct (same_key (Lambda l2) (Lambda l1)) eqn:E; [|reflexivity].
    apply same_key_eq in E. contradiction. }
  split; [|split; [|split]].
  - unfold py_hash, KisLambdaEventCallback_hash. rewrite Hc, Hw. reflexivity.
  - simpl. unfold add, set_add, len. simpl. rewrite Hh. simpl.
    rewrite Hk. reflexivity.
  - intros f w o. simpl. unfold set_add, set_contains. simpl.
    rewrite Hh. simpl.
    match goal with |- context [same_key ?a ?b] =>
      destruct (same_key a b) eqn:E end; [|reflexivity].
    apply same_key_eq in E. inversion E. lia.
  - intros st1 H1. rewrite remove_eq.
    destruct (release_method _ (mem st1)) as [[[]|x] u]; simpl; rewrite H1.
    + simpl. rewrite Hk. reflexivity.
    + reflexivity.
Qed.

(** ** Removing *)

(** C8, amended.  [remove] calls the wrapper's release hook ([__del__])
    first.  When the hook returns, the wrapper is then taken out of the
    set; when the hook raises, [remove] raises the same exception at once
    and the set is left as it was: the removal is not attempted. *)
Theorem remove_release_then_removal
    (l : KisLambdaEventCallback) (st : state U) :
  (forall st1,
      KisLambdaEventCallback_del release_method l st = (Ret tt, st1) ->
      remove (Lambda l) st =
        (Ret tt,
         with_handlers
           (filter (fun y => negb (same_key (Lambda l) y)) (handlers st)) st1)
      /\ set_contains (Lambda l) (handlers (snd (remove (Lambda l) st))) = false)
  /\ (forall x st1,
        KisLambdaEventCallback_del release_method l st = (Raise x, st1) ->
        remove (Lambda l) st = (Raise x, st1)
        /\ handlers st1 = handlers st).
Proof.
  unfold KisLambdaEventCallback_del, call_release_method.
  rewrite remove_eq. simpl.
  destruct (release_method (cb_callback l) (mem st)) as [[[]|y] u]; split.
  - intros st1 E. inversion E; subst; clear E. split; [reflexivity|].
    simpl. apply set_contains_false. apply discard_not_In.
  - intros x st1 E. discriminate.
  - intros st1 E. discriminate.
  - intros x st1 E. inversion E; subst; clear E. split; reflexivity.
Qed.

Lemma release_hook_eq (h : EventCallback) (st : state U) :
  release_hook h st =
  (fst (release_method (released_callable h) (mem st)),
   with_mem (snd (release_method (released_callable h) (mem st))) st).
Proof.
  unfold release_hook, KisLambdaEventCallback_del, call_release_method.
  destruct h as [f|l]; simpl;
    destruct (release_method _ (mem st)) as [r u]; reflexivity.
Qed.

(** C9, amended.  [remove] of a callback that is not in the set leaves
    the set as it was and raises nothing of its own (its outcome is the
    outcome of the release hook, the [KeyError] of the set being passed
    over).  So a second [remove] right after a first one that returned
    leaves the set as the first one left it, and returns whenever the
    release hook does. *)
Theorem remove_idempotent (h : EventCallback) :
  (forall st,
      set_contains h (handlers st) = false ->
      handlers (snd (remove h st)) = handlers st
      /\ fst (remove h st) = fst (release_hook h st))
  /\ (forall st st1,
        remove h st = (Ret tt, st1) ->
        handlers (snd (remove h st1)) = handlers st1
        /\ fst (remove h st1) = fst (release_hook h st1)
        /\ (fst (release_hook h st1) = Ret tt ->
            exists st2, remove h st1 = (Ret tt, st2)
                        /\ handlers st2 = handlers st1)).
Proof.
  assert (Habs : forall st,
             set_contains h (handlers st) = false ->
             handlers (snd (remove h st)) = handlers st
             /\ fst (remove h st) = fst (release_hook h st)).
  { intros st Hc. apply set_contains_false in Hc.
    rewrite remove_eq, release_hook_eq.
    destruct (release_method _ (mem st)) as [[[]|x] u]; simpl.
    - rewrite (discard_absent _ _ Hc). split; reflexivity.
    - split; reflexivity. }
  split; [exact Habs|].
  intros st st1 E. apply remove_returns_absent in E.
  destruct (Habs st1 E) as [Hs Hr]. split; [exact Hs|]. split; [exact Hr|].
  intros Hok. rewrite Hok in Hr.
  destruct (remove h st1) as [r st2]. simpl in *. subst r.
  exists st2. split; [reflexivity | exact Hs].
Qed.

(** * Further properties of the handler *)

(** ** Adding and removing *)

Lemma discard_In (x y : EventCallback) (s : list EventCallback) :
  In y (filter (fun z => negb (same_key x z)) s) <-> In y s /\ y <> x.
Proof.
  rewrite filter_In. split; intros [Hy H]; (split; [exact Hy|]).
  - intros ->. rewrite (proj2 (same_key_eq x x) eq_refl) in H. discriminate.
  - destruct (same_key x y) eqn:E; [|reflexivity].
    apply same_key_eq in E. contradiction.
Qed.

Lemma filter_subseq (A : Type) (p : A -> bool) (l : list A) :
  subseq (filter p l) l.
Proof.
  induction l as [|x l IH]; simpl.
  - constructor.
  - destruct (p x); constructor; exact IH.
Qed.

(** X1.  After [add(h)] the callback is a member, the other members are
    the ones there were, the size grows by one when [h] is new and stays
    as it was when [h] was already a member, and the memory is not
    touched; the ticket returned is for [h] and carries no
    unsubscribed-callbacks. *)
Theorem add_registers (h : EventCallback) (st : state U) :
  fst (add h st)
    = Ret {| tk_callback := h; tk_unsubscribed_callbacks := [] |}
  /\ fst (contains h (snd (add h st))) = Ret true
  /\ (forall y, In y (handlers (snd (add h st)))
                <-> y = h \/ In y (handlers st))
  /\ fst (len (snd (add h st)))
     = Ret (if set_contains h (handlers st)
            then length (handlers st)
            else S (length (handlers st)))
  /\ mem (snd (add h st)) = mem st.
Proof.
  unfold add, contains, len. simpl. split; [reflexivity|].
  split.
  { f_equal. apply set_contains_In. apply set_add_In. left. reflexivity. }
  split.
  { intros y. apply set_add_In. }
  split; [|reflexivity].
  f_equal. unfold set_add. destruct (set_contains h (handlers st)).
  - reflexivity.
  - rewrite length_app. simpl. lia.
Qed.

(** X2.  Subscribing a callback that was not a member and removing it
    again gives back the set of members exactly as it was, provided the
    release of the callback returns. *)
Theorem add_remove_round_trip (h : EventCallback) (st : state U) :
  set_contains h (handlers st) = false ->
  fst (release_hook h (snd (add h st))) = Ret tt ->
  fst ((t <- add h ;; remove h ;; ret t) st)
    = Ret {| tk_callback := h; tk_unsubscribed_callbacks := [] |}
  /\ handlers (snd ((t <- add h ;; remove h ;; ret t) st)) = handlers st.
Proof.
  intros Hc Hr. apply set_contains_false in Hc.
  rewrite release_hook_eq in Hr. simpl in Hr.
  simpl. rewrite remove_eq. simpl.
  destruct (release_method (released_callable h) (mem st)) as [[[]|x] u];
    simpl in *; [|discriminate].
  split; [reflexivity|].
  unfold set_add. rewrite (proj2 (set_contains_false h (handlers st)) Hc).
  rewrite filter_app. simpl.
  rewrite (proj2 (same_key_eq h h) eq_refl). simpl.
  rewrite (discard_absent _ _ Hc). apply app_nil_r.
Qed.

(** X3.  [remove(h)] that returns takes [h] out and nothing else: the
    members afterwards are the members before other than [h], in the
    order they had. *)
Theorem remove_keeps_others (h : EventCallback) (st st1 : state U) :
  remove h st = (Ret tt, st1) ->
  (forall y, In y (handlers st1) <-> In y (handlers st) /\ y <> h)
  /\ subseq (handlers st1) (handlers st)
  /\ next_id st1 = next_id st.
Proof.
  rewrite remove_eq.
  destruct (release_method _ (mem st)) as [[[]|x] u]; intros E;
    inversion E; subst; clear E. simpl.
  split; [intros y; apply discard_In|].
  split; [apply filter_subseq | reflexivity].
Qed.

(** X4.  [clear] empties the handler without releasing anything: no
    member is left, the length is 0, the handler is falsy, the memory is
    what it was (where [remove] would have run the release hook of each
    callback), and the next [invoke] calls nothing. *)
Theorem clear_empties_without_release (s : Sender) (e : Args) (st : state U) :
  fst (clear st) = Ret tt
  /\ (forall h, fst (contains h (snd (clear st))) = Ret false)
  /\ fst (len (snd (clear st))) = Ret 0
  /\ fst (KisEventHandler_bool (snd (clear st))) = Ret false
  /\ mem (snd (clear st)) = mem st
  /\ invoke s e (snd (clear st)) = (Ret tt, snd (clear st), []).
Proof.
  unfold clear, contains, len, KisEventHandler_bool. simpl.
  repeat split; try reflexivity.
Qed.

(** ** The set never holds a callback twice *)

Lemma set_add_NoDup (x : EventCallback) (s : list EventCallback) :
  NoDup s -> NoDup (set_add x s).
Proof.
  intros Hs. unfold set_add. destruct (set_contains x s) eqn:E.
  - exact Hs.
  - apply set_contains_false in E.
    apply NoDup_app; [exact Hs | repeat constructor; intros [] |].
    intros y Hy [<- | []]. contradiction.
Qed.

Lemma set_of_list_spec (hs acc : list EventCallback) :
  NoDup acc ->
  NoDup (fold_left (fun s h => set_add h s) hs acc)
  /\ (forall y, In y (fold_left (fun s h => set_add h s) hs acc)
                <-> In y hs \/ In y acc).
Proof.
  revert acc. induction hs as [|h hs IH]; intros acc Hacc; simpl.
  - split; [exact Hacc|]. intros y. split; [auto | intros [[] | H]; exact H].
  - destruct (IH (set_add h acc) (set_add_NoDup h acc Hacc)) as [Hn Hi].
    split; [exact Hn|]. intros y. rewrite Hi, set_add_In.
    split; [intros [H | [H | H]] | intros [[H | H] | H]]; auto.
Qed.

(** X5.  The handler's set never holds a callback twice: [__init__]
    builds such a set out of any arguments (with the arguments as its
    members), and [add], [on], [remove] and [clear] keep it so. *)
Theorem handlers_stay_duplicate_free :
  (forall hs st,
      NoDup (handlers (snd (KisEventHandler_init hs st)))
      /\ (forall y, In y (handlers (snd (KisEventHandler_init hs st)))
                    <-> In y hs))
  /\ (forall st, NoDup (handlers st) ->
       (forall h, NoDup (handlers (snd (add h st))))
       /\ (forall f w o, NoDup (handlers (snd (on f w o st))))
       /\ (forall h, NoDup (handlers (snd (remove h st))))
       /\ NoDup (handlers (snd (clear st)))).
Proof.
  split.
  - intros hs st. unfold KisEventHandler_init, set_of_list. simpl.
    destruct (set_of_list_spec hs [] (NoDup_nil _)) as [Hn Hi].
    split; [exact Hn|]. intros y. rewrite Hi. simpl. tauto.
  - intros st Hst. split; [|split; [|split]].
    + intros h. unfold add. simpl. apply set_add_NoDup. exact Hst.
    + intros f w o. rewrite on_eq. simpl. apply set_add_NoDup. exact Hst.
    + intros h. rewrite remove_eq.
      destruct (release_method _ (mem st)) as [[[]|x] u]; simpl.
      * apply NoDup_filter. exact Hst.
      * exact Hst.
    + unfold clear. simpl. constructor.
Qed.

(** ** Equality of handlers and of tickets *)

Lemma set_eq_spec (a b : list EventCallback) :
  set_eq a b = true <-> length a = length b /\ incl a b.
Proof.
  unfold set_eq. rewrite andb_true_iff, Nat.eqb_eq, forallb_forall.
  split; intros [Hl Hi]; (split; [exact Hl|]); intros x Hx.
  - apply set_contains_In. apply Hi. exact Hx.
  - apply set_contains_In. apply Hi. exact Hx.
Qed.

Lemma set_eq_members (a b : list EventCallback) :
  NoDup a -> NoDup b ->
  (set_eq a b = true <-> (forall y, In y a <-> In y b)).
Proof.
  intros Ha Hb. rewrite set_eq_spec. split.
  - intros [Hl Hi] y. split; [apply Hi|].
    apply (NoDup_length_incl Ha); [lia | exact Hi].
  - intros H. assert (Hab : incl a b) by (intros y; apply H).
    assert (Hba : incl b a) by (intros y; apply H).
    split; [|exact Hab].
    pose proof (NoDup_incl_length Ha Hab). pose proof (NoDup_incl_length Hb Hba).
    lia.
Qed.

(** X6.  Two handlers are equal exactly when they have the same members,
    in whatever order these were added; a handler never equals an object
    that is not a handler; [!=] answers the opposite of [==]. *)
Theorem handler_equality_is_membership
    (s : list EventCallback) (other : py_other) (st : state U) :
  NoDup (handlers st) -> NoDup s ->
  (fst (KisEventHandler_eq (OtherHandler s) st) = Ret true
   <-> (forall y, In y (handlers st) <-> In y s))
  /\ fst (KisEventHandler_eq OtherObject st) = Ret false
  /\ (forall b, fst (KisEventHandler_eq other st) = Ret b ->
                fst (KisEventHandler_ne other st) = Ret (negb b))
  /\ snd (KisEventHandler_eq other st) = st.
Proof.
  intros Hst Hs. unfold KisEventHandler_ne, KisEventHandler_eq. simpl.
  split; [|split; [reflexivity|split; [|reflexivity]]].
  - rewrite <- (set_eq_members _ _ Hst Hs).
    split; [intros E; inversion E; reflexivity | intros ->; reflexivity].
  - intros b E. inversion E. reflexivity.
Qed.

Lemma set_eq_refl (a : list EventCallback) : set_eq a a = true.
Proof. apply set_eq_spec. split; [reflexivity | apply incl_refl]. Qed.

(** X7.  Two tickets of the same handler are equal exactly when they are
    for the same callback, whatever unsubscribed-callbacks each carries;
    so the tickets of two [add] calls for one callback are equal, and the
    tickets of two [on] calls with the same arguments are not (each call
    makes a wrapper of its own). *)
Theorem ticket_equality
    (t : KisEventTicket) (c : EventCallback) (st : state U) :
  (fst (KisEventTicket_eq t (OtherTicket c (handlers st)) st) = Ret true
   <-> tk_callback t = c)
  /\ fst (KisEventTicket_eq t OtherObject st) = Ret false
  /\ (forall f w o,
        fst (KisEventTicket_eq
               {| tk_callback :=
                    Lambda {| cb_id := next_id st; cb_callback := f;
                              cb_where := w; cb_once := o |};
                  tk_unsubscribed_callbacks := [] |}
               (OtherTicket
                  (Lambda {| cb_id := S (next_id st); cb_callback := f;
                             cb_where := w; cb_once := o |})
                  (handlers (snd ((on f w o ;; on f w o) st))))
               (snd ((on f w o ;; on f w o) st)))
        = Ret false).
Proof.
  unfold KisEventTicket_eq, KisEventHandler_eq. simpl.
  split; [|split; [reflexivity|]].
  - rewrite set_eq_refl. simpl. rewrite <- py_eq_eq.
    split; [intros E; inversion E; reflexivity | intros ->; reflexivity].
  - intros f w o. rewrite set_eq_refl. simpl. f_equal.
    match goal with |- ?k = false => destruct k eqn:E end; [|reflexivity].
    apply KisLambdaEventCallback_eqb_eq in E. inversion E. lia.
Qed.

(** ** Tickets as scoped resources *)

(** X8.  Leaving a [with ticket:] block unsubscribes: whether the block
    returned or raised, its outcome is the outcome of the statement, the
    ticket's callback is no longer a member, and nothing more than the
    block's own calls was called - provided the callback's release
    returns. *)
Theorem scoped_cleanup (A : Type) (t : KisEventTicket)
    (block : KisEventTicket -> W Sender Args U A) (st : state U) :
  fst (release_hook (tk_callback t) (state_of (block t st))) = Ret tt ->
  result_of (with_ticket t block st) = result_of (block t st)
  /\ set_contains (tk_callback t)
       (handlers (state_of (with_ticket t block st))) = false
  /\ trace_of (with_ticket t block st) = trace_of (block t st).
Proof.
  intros Hr. unfold with_ticket, ticket_enter, ticket_exit. simpl.
  destruct (block t st) as [[r st1] t1]. simpl in *.
  rewrite unsubscribe_eq. unfold lift.
  rewrite release_hook_eq in Hr. simpl in Hr.
  destruct (remove (tk_callback t) st1) as [[[]|x] st2] eqn:E; simpl.
  - split; [reflexivity|]. split; [|apply app_nil_r].
    exact (remove_returns_absent _ _ _ E).
  - exfalso. rewrite remove_eq in E. unfold state_of in Hr. simpl in Hr.
    destruct (release_method _ (mem st1)) as [[[]|y] u]; simpl in *;
      discriminate.
Qed.

(** ** Calling a wrapper directly *)

(** X9.  Calling a wrapper as a function reads its filter the other way
    round from [invoke]: when [__filter__] answers [b], [__call__] runs
    [__callback__] exactly when [b] is [True] and the step of [invoke]
    runs it exactly when [b] is [False].  Whatever the filter, one of the
    two paths delivers and the other does not. *)
Theorem direct_call_and_dispatch_disagree
    (l : KisLambdaEventCallback) (s : Sender) (e : Args) (b : bool)
    (st st1 : state U) :
  KisLambdaEventCallback_filter l s e st = (Ret b, st1) ->
  KisLambdaEventCallback_call l s e st
    = (if b then KisLambdaEventCallback_callback l s e st1
       else (Ret tt, st1, []))
  /\ invoke_one s e (Lambda l) st
     = (if b then (Ret tt, st1, [])
        else KisLambdaEventCallback_callback l s e st1).
Proof.
  intros Hf. unfold KisLambdaEventCallback_call, invoke_one, lift. simpl.
  rewrite Hf. destruct b; simpl; split; try reflexivity;
    destruct (KisLambdaEventCallback_callback l s e st1) as [[r st2] t2];
    reflexivity.
Qed.

(** ** The order and the end of a pass *)

Lemma for_each_app_W (A : Type) (k : A -> W Sender Args U unit)
    (xs ys : list A) (st : state U) :
  for_each (xs ++ ys) k st =
  match for_each xs k st with
  | (Ret _, st1, t1) =>
      match for_each ys k st1 with
      | (r, st2, t2) => (r, st2, t1 ++ t2)
      end
  | (Raise y, st1, t1) => (Raise y, st1, t1)
  end.
Proof.
  revert st. induction xs as [|x xs IH]; intros st.
  - simpl. destruct (for_each ys k st) as [[r st2] t2]. reflexivity.
  - simpl app. rewrite !for_each_cons_W.
    destruct (k x st) as [[[[]|y] st1] t1]; [|reflexivity].
    rewrite IH.
    destruct (for_each xs k st1) as [[[[]|y] st2] t2]; [|reflexivity].
    destruct (for_each ys k st2) as [[r st3] t3].
    rewrite app_assoc. reflexivity.
Qed.

(** X10.  [invoke] stops at the first callback that raises: the
    callbacks after it in the snapshot are not dispatched, the state and
    the calls made are those at the moment of the raise, and the
    exception leaves [invoke] as it is. *)
Theorem invoke_fail_fast
    (pre post : list EventCallback) (h : EventCallback)
    (s : Sender) (e : Args) (x : exn)
    (st st1 st2 : state U) (t1 t2 : list (event Sender Args)) :
  handlers st = pre ++ h :: post ->
  for_each pre (invoke_one s e) st = (Ret tt, st1, t1) ->
  invoke_one s e h st1 = (Raise x, st2, t2) ->
  invoke s e st = (Raise x, st2, t1 ++ t2).
Proof.
  intros Hh Hpre Hx.
  rewrite invoke_eq, Hh, for_each_app_W, Hpre, for_each_cons_W, Hx.
  reflexivity.
Qed.

Lemma subseq_nil_l (A : Type) (l : list A) : subseq [] l.
Proof. induction l; constructor; assumption. Qed.

Lemma subseq_incl (A : Type) (l1 l2 : list A) :
  subseq l1 l2 -> incl l1 l2.
Proof.
  intros H. induction H; intros y Hy.
  - exact Hy.
  - right. apply IHsubseq. exact Hy.
  - destruct Hy as [<- | Hy]; [left; reflexivity | right; apply IHsubseq; exact Hy].
Qed.

Lemma subseq_NoDup (A : Type) (l1 l2 : list A) :
  subseq l1 l2 -> NoDup l2 -> NoDup l1.
Proof.
  intros H. induction H; intros Hn.
  - constructor.
  - inversion Hn; subst. auto.
  - inversion Hn; subst. constructor; [|auto].
    intros Hx. apply H2. exact (subseq_incl _ _ _ H x Hx).
Qed.

Lemma called_callbacks_app (t1 t2 : list (event Sender Args)) :
  called_callbacks (t1 ++ t2) = called_callbacks t1 ++ called_callbacks t2.
Proof.
  induction t1 as [|[h s e|g t] t1 IH]; simpl.
  - reflexivity.
  - rewrite IH. reflexivity.
  - exact IH.
Qed.

Lemma for_each_called_subseq (s : Sender) (e : Args)
    (xs : list EventCallback) (st : state U) :
  subseq (called_callbacks (trace_of (for_each xs (invoke_one s e) st))) xs.
Proof.
  revert st. induction xs as [|x xs IH]; intros st.
  - simpl. constructor.
  - rewrite for_each_cons_W.
    pose proof (invoke_one_trace s e x st) as Hx.
    destruct (invoke_one s e x st) as [[[[]|y] st1] t1]; simpl in Hx.
    + specialize (IH st1).
      destruct (for_each xs (invoke_one s e) st1) as [[r st2] t2].
      simpl in *. rewrite called_callbacks_app.
      destruct Hx as [-> | ->]; simpl.
      * apply subseq_skip. exact IH.
      * apply subseq_take. exact IH.
    + simpl. destruct Hx as [-> | ->]; simpl.
      * apply subseq_nil_l.
      * apply subseq_take. apply subseq_nil_l.
Qed.

(** X11.  A pass calls the members of the snapshot in the snapshot's
    order, each at most once, and calls nothing else; and a pass that
    runs to its end has called every plain function that was a member
    when it began, also one that an earlier callback has removed in the
    meantime. *)
Theorem invoke_follows_snapshot (s : Sender) (e : Args) (st : state U) :
  subseq (called_callbacks (trace_of (invoke s e st))) (handlers st)
  /\ (NoDup (handlers st) ->
      NoDup (called_callbacks (trace_of (invoke s e st))))
  /\ (result_of (invoke s e st) = Ret tt ->
      forall f, In (Plain f) (handlers st) ->
                In (Called (Plain f) s e) (trace_of (invoke s e st))).
Proof.
  rewrite invoke_eq.
  pose proof (for_each_called_subseq s e (handlers st) st) as Hs.
  split; [exact Hs|]. split.
  - intros Hn. exact (subseq_NoDup _ _ _ Hs Hn).
  - intros Hret f Hf.
    apply for_each_reaches with (x0 := Plain f); [|exact Hf|exact Hret].
    intros st0 _. unfold invoke_one. rewrite call_eq. left. reflexivity.
Qed.

(** ** One-shot subscriptions, and unsubscribing twice *)

(** X12.  A one-shot subscription whose filter lets the event through
    fires once: in the first pass its action is called, once, the ticket
    is no longer registered afterwards, and the next pass calls nothing -
    for an action that returns and leaves the set of members alone, and a
    filter and a release that return. *)
Theorem one_shot_fires_once
    (f : callable) (w : where_obj) (s : Sender) (e : Args) (u : U)
    (st st1 : state U) (t : KisEventTicket) :
  handlers st = [] ->
  once f (Some w) st = (Ret t, st1) ->
  apply_where w s e st1 = (Ret false, st1) ->
  release_method f (mem st1) = (Ret tt, u) ->
  (forall st', fst (body f s e st') = Ret tt
               /\ handlers (snd (body f s e st')) = handlers st') ->
  exists st2,
    invoke s e st1 = (Ret tt, st2, [Called (tk_callback t) s e])
    /\ fst (registered t st2) = Ret false
    /\ invoke s e st2 = (Ret tt, st2, []).
Proof.
  intros Hh E Hf Hr Hb.
  pose proof (once_with_passing_filter f w s e u st st1 t Hh E Hf Hr) as Hi.
  destruct (Hb (with_handlers [] (with_mem u st1))) as [Hret Hs].
  exists (snd (body f s e (with_handlers [] (with_mem u st1)))).
  rewrite Hi, Hret. split; [reflexivity|]. simpl in Hs. split.
  - unfold registered, contains. simpl. rewrite Hs. reflexivity.
  - apply invoke_empty. exact Hs.
Qed.

(** X13.  Unsubscribing a second time changes nothing: after an
    [unsubscribe] that returned, another one leaves the set of members as
    it is, calls nothing, and returns or raises as the release of the
    callback does. *)
Theorem unsubscribe_twice_is_noop
    (t : KisEventTicket) (st st1 : state U) (tr : list (event Sender Args)) :
  unsubscribe t st = (Ret tt, st1, tr) ->
  handlers (state_of (unsubscribe t st1)) = handlers st1
  /\ trace_of (unsubscribe t st1) = []
  /\ result_of (unsubscribe t st1) = fst (release_hook (tk_callback t) st1).
Proof.
  rewrite !unsubscribe_eq. unfold lift, state_of, trace_of, result_of.
  destruct (remove (tk_callback t) st) as [r st'] eqn:E. intros H.
  inversion H; subst; clear H.
  pose proof (remove_returns_absent _ _ _ E) as Habs.
  apply set_contains_false in Habs.
  rewrite remove_eq, release_hook_eq.
  destruct (release_method _ (mem st1)) as [[[]|x] u]; simpl.
  - rewrite (discard_absent _ _ Habs). repeat split.
  - repeat split.
Qed.

End Properties.

(** * The properties on the concrete program *)

Lemma on_without_filter_never_delivers_witness :
  (forall s0 e0 st0 s' e',
      ~ In (Called (Lambda unfiltered_wrapper) s' e')
           (trace_of (demo_invoke s0 e0 st0)))
  /\ demo_invoke None 5%Z (snd (demo_on 0 None false demo_start))
     = (Ret tt, snd (demo_on 0 None false demo_start), []).
Proof.
  destruct (@on_without_filter_never_delivers (option nat) Z (list Z)
              demo_hash_callable demo_hash_None demo_hash_tuple
              demo_body demo_pred demo_release_method
              0 false None 5%Z demo_start _ _ eq_refl) as [H1 H2].
  split; [exact H1 | apply H2; reflexivity].
Defined.

Lemma once_without_filter_is_never_consumed_witness :
  demo_invoke None 5%Z once_state = (Ret tt, once_state, [])
  /\ demo_registered once_ticket once_state = (Ret true, once_state).
Proof.
  exact (@once_without_filter_is_never_consumed (option nat) Z (list Z)
           demo_hash_callable demo_hash_None demo_hash_tuple
           demo_body demo_pred demo_release_method
           0 None 5%Z demo_start once_state once_ticket eq_refl eq_refl).
Defined.

(** C3, amended.  In the scenario the filter [e < 0] answers [False] for
    [5], which lets the event through, and [True] for [-1], which
    suppresses it: [results] is [[5]] after [H.invoke(None, 5)] and still
    [[5]] after [H.invoke(None, -1)]. *)
Theorem filter_scenario_results :
  mem filter_scenario_after_first = [5%Z]
  /\ mem filter_scenario_after_second = [5%Z].
Proof. split; reflexivity. Qed.

(** C3 as stated does not hold: [results] is not empty after the first
    pass (nor [[-1]] after the second). *)
Lemma filter_scenario_as_claimed_fails :
  ~ (mem filter_scenario_after_first = []
     /\ mem filter_scenario_after_second = [(-1)%Z]).
Proof. intros [H _]. vm_compute in H. discriminate. Qed.

Lemma filter_polarity_witness :
  (In (Called (Lambda filtered_wrapper) None 5%Z)
      (trace_of (demo_invoke None 5%Z filter_scenario_subscribed))
   <-> false = false)
  /\ ~ In (Called (Lambda filtered_wrapper) None (-1)%Z)
          (trace_of (demo_invoke None (-1)%Z filter_scenario_subscribed)).
Proof.
  split.
  - apply (@filter_polarity (option nat) Z (list Z)
             demo_hash_callable demo_hash_None demo_hash_tuple
             demo_body demo_pred demo_release_method
             filtered_wrapper (WCallable 1) None 5%Z false
             filter_scenario_subscribed eq_refl (or_introl eq_refl)
             (fun st' => eq_refl)).
    reflexivity.
  - apply (@filter_polarity (option nat) Z (list Z)
             demo_hash_callable demo_hash_None demo_hash_tuple
             demo_body demo_pred demo_release_method
             filtered_wrapper (WCallable 1) None (-1)%Z true
             filter_scenario_subscribed eq_refl (or_introl eq_refl)
             (fun st' => eq_refl)).
    reflexivity.
Defined.

Lemma unsubscribe_never_notifies_witness :
  set_contains demo_hash_callable demo_hash_None demo_hash_tuple
    (tk_callback plain_ticket) (handlers plain_state) = true
  /\ trace_of (demo_unsubscribe plain_ticket plain_state) = [].
Proof.
  split.
  - reflexivity.
  - apply (@unsubscribe_never_notifies (option nat) Z (list Z)
             demo_hash_callable demo_hash_None demo_hash_tuple
             demo_unsubscribed_body demo_release_method
             plain_ticket plain_state).
Defined.

Lemma equal_valued_wrappers_stay_distinct_witness :
  fst ((t1 <- demo_on 0 None false ;; t2 <- demo_on 0 None false ;;
        n <- @len (list Z) ;; ret (t1, t2, n)) demo_start)
  = Ret ({| tk_callback := Lambda unfiltered_wrapper;
            tk_unsubscribed_callbacks := [] |},
         {| tk_callback := Lambda unfiltered_wrapper_again;
            tk_unsubscribed_callbacks := [] |},
         2).
Proof.
  assert (Hid : cb_id unfiltered_wrapper <> cb_id unfiltered_wrapper_again).
  { simpl. lia. }
  destruct (@equal_valued_wrappers_stay_distinct (list Z)
              demo_hash_callable demo_hash_None demo_hash_tuple
              demo_release_method
              unfiltered_wrapper unfiltered_wrapper_again demo_start
              eq_refl eq_refl Hid eq_refl) as [_ [_ [H _]]].
  exact (H 0 None false).
Defined.

Lemma snapshot_isolation_witness :
  (forall s' e',
      ~ In (Called (Plain 3) s' e')
           (trace_of (demo_invoke None 5%Z subscriber_state)))
  /\ demo_invoke None 5%Z subscriber_state
     = (Ret tt, with_handlers [Plain 2; Plain 3] subscriber_state,
        [Called (Plain 2) None 5%Z])
  /\ handlers (state_of (scenario_invoke None 5%Z discarding_state))
     = [Plain 4].
Proof.
  assert (HB : ~ In (Plain 3) (handlers subscriber_state)).
  { simpl. intros [H | []]. discriminate H. }
  assert (HB' : ~ In (Plain 3) (handlers discarding_state)).
  { simpl. intros [H | []]. discriminate H. }
  destruct (@snapshot_isolation (option nat) Z (list Z)
              demo_hash_callable demo_hash_None demo_hash_tuple
              demo_body demo_pred demo_unsubscribed_body demo_release_method
              (Plain 2) (Plain 3) 2 None 5%Z subscriber_state HB)
    as [H1 H2].
  destruct (H2 eq_refl (fun st' => eq_refl)) as [Hkept _].
  destruct (@snapshot_isolation (option nat) Z (list Z)
              demo_hash_callable demo_hash_None demo_hash_tuple
              scenario_body demo_pred demo_unsubscribed_body
              demo_release_method
              (Plain 4) (Plain 3) 4 None 5%Z discarding_state HB')
    as [_ H3].
  destruct (H3 eq_refl (fun st' => eq_refl)) as [_ Hdropped].
  split; [exact H1|]. split.
  - exact (Hkept (fun _ u => u) (fun st' => eq_refl)).
  - apply (Hdropped (fun st' => eq_refl) eq_refl).
Defined.

(** C8 as stated does not hold: when the release hook raises, [remove]
    raises with it and the wrapper is still a member of the set. *)
Lemma remove_failing_release_keeps_member :
  demo_remove (Lambda failing_release_wrapper) failing_release_state
  = (Raise (Exception 0), failing_release_state)
  /\ fst (demo_contains (Lambda failing_release_wrapper)
            (snd (demo_remove (Lambda failing_release_wrapper)
                              failing_release_state)))
     = Ret true.
Proof. split; reflexivity. Qed.

(** C4 as stated does not hold: a filter that answers [False] does not
    always get its subscription called.  A one-shot subscription whose
    release raises is not called; and of two subscriptions whose actions
    raise, the second is not reached. *)
Lemma filter_false_not_always_delivered :
  fst (demo_pred 3 None 5%Z failing_once_state) = Ret false
  /\ ~ In (Called (Lambda failing_once_wrapper) None 5%Z)
          (trace_of (demo_invoke None 5%Z failing_once_state))
  /\ ~ In (Called (Lambda raising_second) None 5%Z)
          (trace_of (scenario_invoke None 5%Z raising_pair_state)).
Proof.
  split; [reflexivity|]. split.
  - vm_compute. intros [].
  - vm_compute. intros [H | []]. discriminate H.
Qed.

(** C7 as stated does not hold: when the action of [A] is the statement
    [H.add(B)], the ticket is let go of and finalized, and [B] is not a
    member after the pass. *)
Lemma discarded_ticket_unsubscribes :
  scenario_invoke None 5%Z discarding_state
  = (Ret tt, discarding_state, [Called (Plain 4) None 5%Z])
  /\ fst (demo_contains (Plain 3)
            (state_of (scenario_invoke None 5%Z discarding_state)))
     = Ret false.
Proof. split; reflexivity. Qed.

(** C9 as stated does not hold: [remove] of a callback that is not in the
    set raises when the release of the callback raises. *)
Lemma remove_absent_failing_release_raises :
  fst (demo_contains (Lambda failing_release_wrapper) demo_start) = Ret false
  /\ demo_remove (Lambda failing_release_wrapper) demo_start
     = (Raise (Exception 0), demo_start).
Proof. split; reflexivity. Qed.

Lemma remove_release_then_removal_witness :
  demo_remove (Lambda filtered_wrapper) filter_scenario_subscribed
  = (Ret tt, with_handlers [] filter_scenario_subscribed)
  /\ (demo_remove (Lambda failing_release_wrapper) failing_release_state
      = (Raise (Exception 0), failing_release_state)
      /\ handlers failing_release_state = handlers failing_release_state).
Proof.
  split.
  - apply (proj1 (@remove_release_then_removal (list Z)
             demo_hash_callable demo_hash_None demo_hash_tuple
             demo_release_method filtered_wrapper
             filter_scenario_subscribed) filter_scenario_subscribed eq_refl).
  - apply (proj2 (@remove_release_then_removal (list Z)
             demo_hash_callable demo_hash_None demo_hash_tuple
             demo_release_method failing_release_wrapper
             failing_release_state) (Exception 0) failing_release_state
             eq_refl).
Defined.

Lemma remove_idempotent_witness :
  exists st2,
    demo_remove (Plain 3) (snd (demo_remove (Plain 3) plain_state))
    = (Ret tt, st2)
    /\ handlers st2 = handlers (snd (demo_remove (Plain 3) plain_state)).
Proof.
  apply (proj2 (@remove_idempotent (list Z)
           demo_hash_callable demo_hash_None demo_hash_tuple
           demo_release_method (Plain 3))
         plain_state (snd (demo_remove (Plain 3) plain_state)) eq_refl).
  reflexivity.
Defined.

(** * Properties of [drop_after] *)

Section ChartProperties.

Context {Bar Rest : Type}.
Variable bar_date : Bar -> Z.

Local Abbreviation before_start := (before_start bar_date).
Local Abbreviation after_end := (after_end bar_date).
Local Abbreviation in_range := (in_range bar_date).
Local Abbreviation drop_after_loop := (drop_after_loop bar_date).
Local Abbreviation drop_after := (@drop_after Bar bar_date Rest).
Local Abbreviation descending := (descending bar_date).
Local Abbreviation ascending := (ascending bar_date).

Lemma drop_after_loop_acc (start end_ : option Z) (xs acc : list Bar) :
  drop_after_loop start end_ xs acc = drop_after_loop start end_ xs [] ++ acc.
Proof.
  revert acc. induction xs as [|x xs IH]; intros acc; simpl.
  - reflexivity.
  - destruct (before_start start x); [reflexivity|].
    destruct (after_end end_ x); [apply IH|].
    rewrite (IH (x :: acc)), (IH [x]), <- app_assoc. reflexivity.
Qed.

(** What the loop keeps is a selection of what it was given, back to
    front, and every bar kept is within the bounds. *)
Lemma drop_after_loop_kept (start end_ : option Z) (xs : list Bar) :
  subseq (rev (drop_after_loop start end_ xs [])) xs
  /\ Forall (fun b => in_range start end_ b = true)
            (drop_after_loop start end_ xs []).
Proof.
  induction xs as [|x xs [IHs IHf]]; simpl.
  - split; constructor.
  - destruct (before_start start x) eqn:Eb.
    + split; [apply subseq_skip; simpl | constructor].
      clear. induction xs; constructor; assumption.
    + destruct (after_end end_ x) eqn:Ea.
      * split; [apply subseq_skip; exact IHs | exact IHf].
      * rewrite drop_after_loop_acc. split.
        -- rewrite rev_app_distr. simpl. apply subseq_take. exact IHs.
        -- apply Forall_app. split; [exact IHf|].
           constructor; [|constructor].
           unfold in_range. rewrite Eb, Ea. reflexivity.
Qed.

(** X14.  [drop_after] keeps only bars whose day is within the given
    bounds, takes them from the chart's own bars, in reverse order, and
    leaves the rest of the chart as it was. *)
Theorem drop_after_within_bounds
    (c : chart Bar Rest) (start end_ : option Z) :
  Forall (fun b => in_range start end_ b = true)
         (bars (drop_after c start end_))
  /\ subseq (rev (bars (drop_after c start end_))) (bars c)
  /\ chart_rest (drop_after c start end_) = chart_rest c.
Proof.
  unfold drop_after. simpl.
  destruct (drop_after_loop_kept start end_ (bars c)) as [Hs Hf].
  split; [exact Hf|]. split; [exact Hs | reflexivity].
Qed.

Lemma drop_after_loop_no_start (end_ : option Z) (xs : list Bar) :
  drop_after_loop None end_ xs []
  = rev (filter (fun b => negb (after_end end_ b)) xs).
Proof.
  induction xs as [|x xs IH]; simpl.
  - reflexivity.
  - destruct (after_end end_ x); simpl; [exact IH|].
    rewrite drop_after_loop_acc, IH. reflexivity.
Qed.

(** X15.  Without a [start] nothing stops the loop: the result is the
    bars up to [end], all of them, back to front, whatever order they
    came in.  Without any bound the chart is simply reversed, and doing
    it twice gives the chart back. *)
Theorem drop_after_without_start (c : chart Bar Rest) (end_ : option Z) :
  bars (drop_after c None end_)
    = rev (filter (fun b => negb (after_end end_ b)) (bars c))
  /\ bars (drop_after c None None) = rev (bars c)
  /\ drop_after (drop_after c None None) None None = c.
Proof.
  unfold drop_after. simpl. rewrite !drop_after_loop_no_start.
  assert (E : forall l : list Bar,
             filter (fun b => negb (after_end None b)) l = l).
  { induction l as [|x l IH]; simpl; [reflexivity | f_equal; exact IH]. }
  split; [reflexivity|]. rewrite !E. split; [reflexivity|].
  rewrite rev_involutive. destruct c. reflexivity.
Qed.

(** X16.  The loop ends at the first bar that is earlier than [start]:
    that bar and every bar after it are dropped, also the bars after it
    that lie within the bounds. *)
Theorem drop_after_stops_at_first_early_bar
    (c : chart Bar Rest) (start end_ : option Z)
    (pre post : list Bar) (b : Bar) :
  bars c = pre ++ b :: post ->
  before_start start b = true ->
  bars (drop_after c start end_)
  = bars (drop_after {| bars := pre; chart_rest := chart_rest c |} start end_).
Proof.
  intros Hc Hb. unfold drop_after. simpl. rewrite Hc. clear Hc.
  generalize (@nil Bar). induction pre as [|x pre IH]; intros acc; simpl.
  - rewrite Hb. reflexivity.
  - destruct (before_start start x); [reflexivity|].
    destruct (after_end end_ x); apply IH.
Qed.

Lemma descending_filter (p : Bar -> bool) (xs : list Bar) :
  descending xs -> descending (filter p xs).
Proof.
  induction xs as [|x xs IH]; simpl; intros H.
  - exact I.
  - destruct H as [Hx Hd]. destruct (p x); simpl.
    + split; [|apply IH; exact Hd].
      rewrite Forall_forall in *. intros y Hy.
      apply Hx. apply filter_In in Hy. apply Hy.
    + apply IH. exact Hd.
Qed.

Lemma ascending_snoc (xs : list Bar) (x : Bar) :
  ascending xs ->
  Forall (fun y => (bar_date y <= bar_date x)%Z) xs ->
  ascending (xs ++ [x]).
Proof.
  induction xs as [|y xs IH]; simpl; intros Ha Hf.
  - split; [constructor | exact I].
  - destruct Ha as [Hy Ha]. inversion Hf; subst. split.
    + apply Forall_app. split; [exact Hy|]. constructor; [assumption|constructor].
    + apply IH; assumption.
Qed.

Lemma descending_rev (xs : list Bar) : descending xs -> ascending (rev xs).
Proof.
  induction xs as [|x xs IH]; simpl; intros H.
  - exact I.
  - destruct H as [Hx Hd]. apply ascending_snoc; [apply IH; exact Hd|].
    rewrite Forall_forall in *. intros y Hy. apply Hx.
    apply in_rev. exact Hy.
Qed.

Lemma filter_none (p : Bar -> bool) (xs : list Bar) :
  (forall y, In y xs -> p y = false) -> filter p xs = [].
Proof.
  induction xs as [|x xs IH]; simpl; intros H.
  - reflexivity.
  - rewrite (H x (or_introl eq_refl)). apply IH.
    intros y Hy. apply H. right. exact Hy.
Qed.

Lemma drop_after_loop_descending (start end_ : option Z)
    (xs acc : list Bar) :
  descending xs ->
  drop_after_loop start end_ xs acc
  = rev (filter (in_range start end_) xs) ++ acc.
Proof.
  revert acc. induction xs as [|x xs IH]; intros acc; simpl; intros H.
  - reflexivity.
  - destruct H as [Hx Hd]. unfold in_range at 1.
    destruct (before_start start x) eqn:Eb; simpl.
    + replace (filter (in_range start end_) xs) with (@nil Bar); [reflexivity|].
      symmetry. apply filter_none.
      rewrite Forall_forall in Hx. intros y Hy. specialize (Hx y Hy).
      unfold in_range, before_start in *. destruct start as [d|]; [|discriminate].
      apply Z.ltb_lt in Eb.
      replace (Z.ltb (bar_date y) d) with true; [reflexivity|].
      symmetry. apply Z.ltb_lt. lia.
    + destruct (after_end end_ x); simpl.
      * apply IH. exact Hd.
      * rewrite (IH (x :: acc) Hd), <- app_assoc. reflexivity.
Qed.

(** X17.  On bars that come newest first, [drop_after] loses nothing: the
    result holds exactly the bars whose day is within the bounds, and
    holds them oldest first. *)
Theorem drop_after_descending_exact
    (c : chart Bar Rest) (start end_ : option Z) :
  descending (bars c) ->
  bars (drop_after c start end_)
    = rev (filter (in_range start end_) (bars c))
  /\ ascending (bars (drop_after c start end_))
  /\ (forall b, In b (bars (drop_after c start end_))
                <-> In b (bars c) /\ in_range start end_ b = true).
Proof.
  intros Hd. unfold drop_after. simpl.
  rewrite (drop_after_loop_descending start end_ (bars c) [] Hd), app_nil_r.
  split; [reflexivity|]. split.
  - apply descending_rev. apply descending_filter. exact Hd.
  - intros b. rewrite <- in_rev. apply filter_In.
Qed.

End ChartProperties.

(** * The further properties on the concrete program *)

Lemma add_remove_round_trip_witness :
  handlers (snd ((t <- demo_add (Plain 3) ;; demo_remove (Plain 3) ;; ret t)
                   demo_start))
  = handlers demo_start.
Proof.
  apply (@add_remove_round_trip (list Z)
           demo_hash_callable demo_hash_None demo_hash_tuple
           demo_release_method (Plain 3) demo_start eq_refl eq_refl).
Defined.

Lemma remove_keeps_others_witness :
  subseq (handlers (snd (demo_remove (Plain 3) two_member_state)))
         (handlers two_member_state).
Proof.
  apply (@remove_keeps_others (list Z)
           demo_hash_callable demo_hash_None demo_hash_tuple
           demo_release_method (Plain 3) two_member_state
           (snd (demo_remove (Plain 3) two_member_state)) eq_refl).
Defined.

Lemma handler_equality_is_membership_witness :
  fst (KisEventHandler_eq demo_hash_callable demo_hash_None demo_hash_tuple
         (OtherHandler [Plain 3; Plain 2]) two_member_state) = Ret true
  <-> (forall y, In y (handlers two_member_state)
                 <-> In y [Plain 3; Plain 2]).
Proof.
  assert (H1 : NoDup (handlers two_member_state)).
  { simpl. repeat constructor; simpl; intuition discriminate. }
  assert (H2 : NoDup [Plain 3; Plain 2]).
  { repeat constructor; simpl; intuition discriminate. }
  apply (@handler_equality_is_membership (list Z)
           demo_hash_callable demo_hash_None demo_hash_tuple
           [Plain 3; Plain 2] OtherObject two_member_state H1 H2).
Defined.

Lemma scoped_cleanup_witness :
  result_of (with_ticket demo_hash_callable demo_hash_None demo_hash_tuple
               demo_unsubscribed_body demo_release_method
               plain_ticket raising_block plain_state)
  = Raise (Exception 1)
  /\ set_contains demo_hash_callable demo_hash_None demo_hash_tuple
       (Plain 3)
       (handlers
          (state_of (with_ticket demo_hash_callable demo_hash_None
                       demo_hash_tuple demo_unsubscribed_body
                       demo_release_method
                       plain_ticket raising_block plain_state)))
     = false.
Proof.
  destruct (@scoped_cleanup (option nat) Z (list Z)
              demo_hash_callable demo_hash_None demo_hash_tuple
              demo_unsubscribed_body demo_release_method
              unit plain_ticket raising_block plain_state eq_refl)
    as [H1 [H2 _]].
  split; [exact H1 | exact H2].
Defined.

Lemma direct_call_and_dispatch_disagree_witness :
  KisLambdaEventCallback_call demo_hash_callable demo_hash_None
    demo_hash_tuple demo_body demo_pred demo_release_method
    filtered_wrapper None 5%Z filter_scenario_subscribed
  = (Ret tt, filter_scenario_subscribed, []).
Proof.
  apply (@direct_call_and_dispatch_disagree (option nat) Z (list Z)
           demo_hash_callable demo_hash_None demo_hash_tuple
           demo_body demo_pred demo_release_method
           filtered_wrapper None 5%Z false
           filter_scenario_subscribed filter_scenario_subscribed eq_refl).
Defined.

Lemma invoke_fail_fast_witness :
  demo_invoke None 5%Z fail_fast_state
  = (Raise (Exception 0), with_mem [5%Z] fail_fast_state,
     [Called (Plain 0) None 5%Z] ++ []).
Proof.
  apply (@invoke_fail_fast (option nat) Z (list Z)
           demo_hash_callable demo_hash_None demo_hash_tuple
           demo_body demo_pred demo_release_method
           [Plain 0] [Plain 3] (Lambda failing_once_wrapper)
           None 5%Z (Exception 0)
           fail_fast_state (with_mem [5%Z] fail_fast_state)
           (with_mem [5%Z] fail_fast_state)
           [Called (Plain 0) None 5%Z] []).
  - reflexivity.
  - reflexivity.
  - reflexivity.
Defined.

Lemma one_shot_fires_once_witness :
  exists st2,
    demo_invoke None 5%Z (snd (demo_once 3 (Some (WCallable 3)) demo_start))
    = (Ret tt, st2,
       [Called (Lambda {| cb_id := 0; cb_callback := 3;
                          cb_where := Some (WCallable 3); cb_once := true |})
               None 5%Z])
    /\ fst (demo_registered
              {| tk_callback :=
                   Lambda {| cb_id := 0; cb_callback := 3;
                             cb_where := Some (WCallable 3);
                             cb_once := true |};
                 tk_unsubscribed_callbacks := [] |} st2) = Ret false
    /\ demo_invoke None 5%Z st2 = (Ret tt, st2, []).
Proof.
  apply (@one_shot_fires_once (option nat) Z (list Z)
           demo_hash_callable demo_hash_None demo_hash_tuple
           demo_body demo_pred demo_release_method
           3 (WCallable 3) None 5%Z [] demo_start
           (snd (demo_once 3 (Some (WCallable 3)) demo_start))
           _ eq_refl eq_refl eq_refl eq_refl).
  intros st'. split; reflexivity.
Defined.

Lemma unsubscribe_twice_is_noop_witness :
  trace_of (demo_unsubscribe plain_ticket
              (state_of (demo_unsubscribe plain_ticket plain_state)))
  = [].
Proof.
  apply (@unsubscribe_twice_is_noop (option nat) Z (list Z)
           demo_hash_callable demo_hash_None demo_hash_tuple
           demo_unsubscribed_body demo_release_method
           plain_ticket plain_state
           (state_of (demo_unsubscribe plain_ticket plain_state)) []
           eq_refl).
Defined.

Lemma drop_after_stops_at_first_early_bar_witness :
  bars (drop_after (fun z : Z => z) unordered_chart (Some 20%Z) None)
  = [50%Z]
  /\ in_range (fun z : Z => z) (Some 20%Z) None 30%Z = true.
Proof.
  split; [|reflexivity].
  apply (@drop_after_stops_at_first_early_bar Z unit (fun z : Z => z)
           unordered_chart (Some 20%Z) None [50%Z] [30%Z] 10%Z
           eq_refl eq_refl).
Defined.

Lemma drop_after_descending_exact_witness :
  bars (drop_after (fun z : Z => z) demo_chart (Some 20%Z) (Some 40%Z))
  = [20; 30; 40]%Z.
Proof.
  assert (Hd : descending (fun z : Z => z) (bars demo_chart)).
  { simpl. repeat split; repeat constructor; lia. }
  apply (@drop_after_descending_exact Z unit (fun z : Z => z)
           demo_chart (Some 20%Z) (Some 40%Z) Hd).
Defined.
